(** * Streaming chat protocol layer: language model providers and the chat agent

    A shallow embedding of
      - [src/vs/workbench/contrib/chat/browser/languageModelProviders.ts]
        (the OpenAI, Anthropic and Ollama providers), and
      - [src/vs/workbench/contrib/chat/browser/customChatAgent.ts]
        (default-model selection in [CustomChatAgentImplementation.invoke]).

    JavaScript strings are sequences of UTF-16 code units, the transport
    delivers byte buffers, and the platform built-ins the providers call
    ([TextDecoder], [String.prototype.split], [JSON.parse], ...) are modelled
    next to the code that uses them. *)

From Stdlib Require Import String Ascii Strings.Byte.
From Stdlib Require Import List NArith ZArith Bool Lia.
Import ListNotations.

(* ================================================================= *)
(** ** JavaScript strings *)

Module JS.

(** A string is the list of its UTF-16 code units. *)
Definition jsstring := list N.

(** Literals of the source, written as Rocq strings. *)
Definition js (s : string) : jsstring :=
  map N_of_ascii (list_ascii_of_string s).

(** Same, with every apostrophe read as a double quote (for JSON texts). *)
Definition jq (s : string) : jsstring :=
  map (fun c => if N.eqb c 39 then 34%N else c) (js s).

Arguments js s%_string.
Arguments jq s%_string.

Fixpoint str_eqb (a b : jsstring) : bool :=
  match a, b with
  | [], [] => true
  | x :: a', y :: b' => N.eqb x y && str_eqb a' b'
  | _, _ => false
  end.

(** [s.startsWith(p)] *)
Fixpoint startsWith (p s : jsstring) : bool :=
  match p, s with
  | [], _ => true
  | x :: p', y :: s' => N.eqb x y && startsWith p' s'
  | _ :: _, [] => false
  end.

(** [s.slice(n)] for [0 <= n]. *)
Definition slice (n : nat) (s : jsstring) : jsstring := skipn n s.

(** [s.includes(p)] *)
Fixpoint includes (p s : jsstring) : bool :=
  startsWith p s ||
  match s with
  | [] => false
  | _ :: s' => includes p s'
  end.

(** The code unit of the line feed. *)
Definition LF : N := 10.

(** [s.split(sep)] for a separator of one code unit; the result is never
    empty: a string without separator is returned whole. *)
Fixpoint split (sep : N) (s : jsstring) : list jsstring :=
  match s with
  | [] => [[]]
  | c :: s' =>
      if N.eqb c sep then [] :: split sep s'
      else match split sep s' with
           | [] => [[c]]
           | l :: ls => (c :: l) :: ls
           end
  end.

(** [xs.pop()]: the array without its last element, and that element
    ([None] is [undefined], on an empty array). *)
Fixpoint pop {A} (xs : list A) : list A * option A :=
  match xs with
  | [] => ([], None)
  | x :: xs' =>
      match xs' with
      | [] => ([], Some x)
      | _ :: _ => let (init, popped) := pop xs' in (x :: init, popped)
      end
  end.

(** [x || ''] on the popped value: [undefined] and [''] are both falsy. *)
Definition or_empty (x : option jsstring) : jsstring :=
  match x with
  | Some (c :: s) => c :: s
  | _ => []
  end.

(** [s.replace(p, r)] with a string pattern: the first occurrence only. *)
Fixpoint replace (p r s : jsstring) : jsstring :=
  if startsWith p s then r ++ skipn (length p) s
  else match s with
       | [] => []
       | c :: s' => c :: replace p r s'
       end.

(** [s.replace(/p/g, r)] for a literal, non-empty pattern: the matches are
    taken left to right and do not overlap.  [skip] counts the code units
    of the current match that remain to be passed over. *)
Fixpoint replaceAll_from (skip : nat) (p r s : jsstring) : jsstring :=
  match s with
  | [] => []
  | c :: s' =>
      match skip with
      | S k => replaceAll_from k p r s'
      | O =>
          if startsWith p s then r ++ replaceAll_from (length p - 1) p r s'
          else c :: replaceAll_from 0 p r s'
      end
  end.

Definition replaceAll (p r s : jsstring) : jsstring := replaceAll_from 0 p r s.

(** [parts.join('')] *)
Definition join (parts : list jsstring) : jsstring := concat parts.

(** White space removed by [trim]: TAB, LF, VT, FF, CR, SP, NBSP, BOM, the
    line and paragraph separators and the Unicode space separators. *)
Definition is_trim_space (c : N) : bool :=
  ((9 <=? c) && (c <=? 13) || (c =? 32) || (c =? 160) || (c =? 5760)
   || ((8192 <=? c) && (c <=? 8202)) || (c =? 8232) || (c =? 8233)
   || (c =? 8239) || (c =? 8287) || (c =? 12288) || (c =? 65279))%N.

Fixpoint trimStart (s : jsstring) : jsstring :=
  match s with
  | c :: s' => if is_trim_space c then trimStart s' else s
  | [] => []
  end.

Definition trim (s : jsstring) : jsstring :=
  rev (trimStart (rev (trimStart s))).

End JS.
Import JS.

(* ================================================================= *)
(** ** [TextDecoder]: the streaming UTF-8 decoder of the platform

    [new TextDecoder()] is the UTF-8 decoder with replacement error mode and
    BOM removal; [decode(value, { stream: true })] keeps its state from one
    call to the next and never flushes. *)

Module TextDecoder.

Record t := mk {
  code_point : N;
  bytes_seen : N;
  bytes_needed : N;
  lower_boundary : N;
  upper_boundary : N;
  bom_seen : bool
}.

Definition create : t := mk 0 0 0 128 191 false.

Definition REPLACEMENT : N := 65533.

Definition in_range (lo hi b : N) : bool := ((lo <=? b) && (b <=? hi))%N.

(** A byte read while no sequence is open. *)
Definition lead (d : t) (b : N) : t * list N :=
  if (b <=? 127)%N then (d, [b])
  else if in_range 194 223 b then
    (mk (N.land b 31) 0 1 128 191 (bom_seen d), [])
  else if in_range 224 239 b then
    (mk (N.land b 15) 0 2
        (if (b =? 224)%N then 160 else 128)
        (if (b =? 237)%N then 159 else 191) (bom_seen d), [])
  else if in_range 240 244 b then
    (mk (N.land b 7) 0 3
        (if (b =? 240)%N then 144 else 128)
        (if (b =? 244)%N then 143 else 191) (bom_seen d), [])
  else (d, [REPLACEMENT]).

(** One byte through the decoder: the code points it completes.  A byte
    that breaks an open sequence yields U+FFFD and is read again as a
    lead byte. *)
Definition handler (d : t) (b : N) : t * list N :=
  if (bytes_needed d =? 0)%N then lead d b
  else if negb (in_range (lower_boundary d) (upper_boundary d) b) then
    let (d', out) := lead (mk 0 0 0 128 191 (bom_seen d)) b in
    (d', REPLACEMENT :: out)
  else
    let cp := N.lor (N.shiftl (code_point d) 6) (N.land b 63) in
    let seen := (bytes_seen d + 1)%N in
    if (seen =? bytes_needed d)%N then
      (mk 0 0 0 128 191 (bom_seen d), [cp])
    else (mk cp seen (bytes_needed d) 128 191 (bom_seen d), []).

(** The code units of one code point. *)
Definition utf16 (cp : N) : jsstring :=
  if (cp <? 65536)%N then [cp]
  else
    let c := (cp - 65536)%N in
    [(55296 + N.shiftr c 10)%N; (56320 + N.land c 1023)%N].

(** Serialising the code points: the first one is dropped when it is the
    byte order mark. *)
Fixpoint serialize (bom : bool) (cps : list N) : bool * jsstring :=
  match cps with
  | [] => (bom, [])
  | cp :: rest =>
      let (bom', out) := serialize true rest in
      if negb bom && (cp =? 65279)%N then (bom', out)
      else (bom', utf16 cp ++ out)
  end.

Definition step (d : t) (b : byte) : t * jsstring :=
  let (d', cps) := handler d (Byte.to_N b) in
  let (bom', out) := serialize (bom_seen d') cps in
  (mk (code_point d') (bytes_seen d') (bytes_needed d')
      (lower_boundary d') (upper_boundary d') bom', out).

(** [decoder.decode(value, { stream: true })] *)
Fixpoint decode (d : t) (value : list byte) : t * jsstring :=
  match value with
  | [] => (d, [])
  | b :: rest =>
      let (d1, o1) := step d b in
      let (d2, o2) := decode d1 rest in
      (d2, o1 ++ o2)
  end.

End TextDecoder.

(* ================================================================= *)
(** ** JavaScript values, errors and [JSON.parse] *)

Module JSON.

(** A number literal [(-1)^negative * digits * 10^exponent], kept exact;
    only its rounding to the binary64 zero is ever observed. *)
Record number := { negative : bool; digits : N; exponent : Z }.

#[local] Set Warnings "-register-all".

Inductive value :=
| JUndefined
| JNull
| JBool (b : bool)
| JNumber (n : number)
| JString (s : jsstring)
| JArray (xs : list value)
| JObject (props : list (jsstring * value)).

(** A thrown error object: its [name] and [message]. *)
Record error := { name : jsstring; message : jsstring }.

Inductive result (A : Type) :=
| Ok (a : A)
| Throw (e : error).
Arguments Ok {A} a.
Arguments Throw {A} e.

Definition TypeError (m : string) : error := {| name := js "TypeError"; message := js m |}.
Definition SyntaxError (m : string) : error := {| name := js "SyntaxError"; message := js m |}.

(** The literal is read as the binary64 zero: no digit, or a magnitude at
    or below half the least subnormal [2^-1074] (ties go to even). *)
Definition is_zero (n : number) : bool :=
  (digits n =? 0)%N
  || ((exponent n <? 0)%Z
      && (Z.of_N (digits n) * 2 ^ 1075 <=? 10 ^ (- exponent n))%Z).

(** [ToBoolean] *)
Definition truthy (v : value) : bool :=
  match v with
  | JUndefined | JNull => false
  | JBool b => b
  | JNumber n => negb (is_zero n)
  | JString s => match s with [] => false | _ => true end
  | JArray _ | JObject _ => true
  end.

Definition nullish (v : value) : bool :=
  match v with
  | JUndefined | JNull => true
  | _ => false
  end.

(** The own property [k] of a parsed object: of two members with one key
    the later one stands. *)
Fixpoint lookup (k : jsstring) (props : list (jsstring * value)) : option value :=
  match props with
  | [] => None
  | (k', v) :: rest =>
      match lookup k rest with
      | Some v' => Some v'
      | None => if str_eqb k k' then Some v else None
      end
  end.

(** [v.k] on a value that is neither [null] nor [undefined], for a name
    [k] that is no array index, not [length] and no member of a built-in
    prototype (every name the providers read is such). *)
Definition get (v : value) (k : jsstring) : value :=
  match v with
  | JObject props => match lookup k props with Some x => x | None => JUndefined end
  | _ => JUndefined
  end.

(** [v[0]] on a value that is neither [null] nor [undefined]. *)
Definition get0 (v : value) : value :=
  match v with
  | JArray (x :: _) => x
  | JString (c :: _) => JString [c]
  | JObject props => match lookup (js "0") props with Some x => x | None => JUndefined end
  | _ => JUndefined
  end.

(** [v.k]: reading a property of [null] or [undefined] throws. *)
Definition member (v : value) (k : jsstring) : result value :=
  if nullish v then Throw (TypeError "Cannot read properties of null")
  else Ok (get v k).

(** [v?.k ...]: the rest of the chain [f] is skipped on [null] and
    [undefined]. *)
Definition optional (v : value) (f : value -> value) : value :=
  if nullish v then JUndefined else f v.

(** *** The parser *)

Definition is_ws (c : N) : bool :=
  ((c =? 9) || (c =? 10) || (c =? 13) || (c =? 32))%N.

Fixpoint skip_ws (s : jsstring) : jsstring :=
  match s with
  | c :: s' => if is_ws c then skip_ws s' else s
  | [] => []
  end.

Definition is_digit (c : N) : bool := ((48 <=? c) && (c <=? 57))%N.

Definition hex_digit (c : N) : option N :=
  if is_digit c then Some (c - 48)%N
  else if ((65 <=? c) && (c <=? 70))%N then Some (c - 55)%N
  else if ((97 <=? c) && (c <=? 102))%N then Some (c - 87)%N
  else None.

Definition hex4 (a b c d : N) : option N :=
  match hex_digit a, hex_digit b, hex_digit c, hex_digit d with
  | Some x, Some y, Some z, Some w => Some (((x * 16 + y) * 16 + z) * 16 + w)%N
  | _, _, _, _ => None
  end.

(** The code unit of a one-letter escape: quote, solidus, reverse solidus,
    b, f, n, r, t. *)
Definition escape (c : N) : option N :=
  if (c =? 34)%N then Some 34%N
  else if (c =? 47)%N then Some 47%N
  else if (c =? 92)%N then Some 92%N
  else if (c =? 98)%N then Some 8%N
  else if (c =? 102)%N then Some 12%N
  else if (c =? 110)%N then Some 10%N
  else if (c =? 114)%N then Some 13%N
  else if (c =? 116)%N then Some 9%N
  else None.

Definition cons_fst (c : N) (r : option (jsstring * jsstring)) :=
  match r with
  | Some (s, rest) => Some (c :: s, rest)
  | None => None
  end.

(** The characters of a string after its opening quote, up to and
    without the closing one. *)
Fixpoint parse_chars (s : jsstring) : option (jsstring * jsstring) :=
  match s with
  | [] => None
  | c :: r =>
      if (c =? 34)%N then Some ([], r)
      else if (c =? 92)%N then
        match r with
        | [] => None
        | e :: r1 =>
            if (e =? 117)%N then
              match r1 with
              | a :: b :: c' :: d :: r2 =>
                  match hex4 a b c' d with
                  | Some u => cons_fst u (parse_chars r2)
                  | None => None
                  end
              | _ => None
              end
            else match escape e with
                 | Some u => cons_fst u (parse_chars r1)
                 | None => None
                 end
        end
      else if (c <? 32)%N then None
      else cons_fst c (parse_chars r)
  end.

(** A run of decimal digits: its value after [acc], how many there are,
    and the rest. *)
Fixpoint take_digits (acc : N) (s : jsstring) : N * nat * jsstring :=
  match s with
  | c :: r =>
      if is_digit c then
        let '(v, n, rest) := take_digits (acc * 10 + (c - 48))%N r in (v, S n, rest)
      else (acc, O, s)
  | [] => (acc, O, [])
  end.

Definition parse_exponent (s : jsstring) : option (Z * jsstring) :=
  match s with
  | c :: r =>
      if ((c =? 101) || (c =? 69))%N then
        let '(neg, r1) :=
          match r with
          | sg :: r' =>
              if (sg =? 45)%N then (true, r')
              else if (sg =? 43)%N then (false, r') else (false, r)
          | [] => (false, r)
          end in
        match take_digits 0 r1 with
        | (_, O, _) => None
        | (v, _, rest) => Some (if neg then (- Z.of_N v)%Z else Z.of_N v, rest)
        end
      else Some (0%Z, s)
  | [] => Some (0%Z, [])
  end.

Definition parse_fraction (int : N) (s : jsstring) : option (N * nat * jsstring) :=
  match s with
  | c :: r =>
      if (c =? 46)%N then
        match take_digits int r with
        | (_, O, _) => None
        | res => Some res
        end
      else Some (int, O, s)
  | [] => Some (int, O, [])
  end.

Definition parse_number (s : jsstring) : option (number * jsstring) :=
  let '(neg, s1) :=
    match s with
    | c :: r => if (c =? 45)%N then (true, r) else (false, s)
    | [] => (false, s)
    end in
  let int :=
    match s1 with
    | c :: r =>
        if (c =? 48)%N then Some (0%N, r)
        else if is_digit c then
          let '(v, _, rest) := take_digits 0 s1 in Some (v, rest)
        else None
    | [] => None
    end in
  match int with
  | None => None
  | Some (i, s2) =>
      match parse_fraction i s2 with
      | None => None
      | Some (m, nfrac, s3) =>
          match parse_exponent s3 with
          | None => None
          | Some (e, s4) =>
              Some ({| negative := neg; digits := m;
                       exponent := (e - Z.of_nat nfrac)%Z |}, s4)
          end
      end
  end.

(** A value, the members of an object and the elements of an array; each
    call follows at least one consumed code unit, so a fuel beyond the
    length of the text is never used up. *)
Fixpoint parse_value (fuel : nat) (s : jsstring) : option (value * jsstring) :=
  match fuel with
  | O => None
  | S f =>
      match skip_ws s with
      | [] => None
      | c :: r =>
          if (c =? 123)%N then
            match skip_ws r with
            | c1 :: r1 =>
                if (c1 =? 125)%N then Some (JObject [], r1)
                else parse_members f (c1 :: r1) []
            | [] => None
            end
          else if (c =? 91)%N then
            match skip_ws r with
            | c1 :: r1 =>
                if (c1 =? 93)%N then Some (JArray [], r1)
                else parse_elements f (c1 :: r1) []
            | [] => None
            end
          else if (c =? 34)%N then
            match parse_chars r with
            | Some (str, rest) => Some (JString str, rest)
            | None => None
            end
          else if startsWith (js "true") (c :: r) then Some (JBool true, skipn 4 (c :: r))
          else if startsWith (js "false") (c :: r) then Some (JBool false, skipn 5 (c :: r))
          else if startsWith (js "null") (c :: r) then Some (JNull, skipn 4 (c :: r))
          else match parse_number (c :: r) with
               | Some (n, rest) => Some (JNumber n, rest)
               | None => None
               end
      end
  end
with parse_members (fuel : nat) (s : jsstring) (acc : list (jsstring * value))
  : option (value * jsstring) :=
  match fuel with
  | O => None
  | S f =>
      match s with
      | c :: r =>
          if (c =? 34)%N then
            match parse_chars r with
            | Some (k, r1) =>
                match skip_ws r1 with
                | c2 :: r2 =>
                    if (c2 =? 58)%N then
                      match parse_value f r2 with
                      | Some (v, r3) =>
                          match skip_ws r3 with
                          | c4 :: r4 =>
                              if (c4 =? 44)%N then
                                parse_members f (skip_ws r4) (acc ++ [(k, v)])
                              else if (c4 =? 125)%N then
                                Some (JObject (acc ++ [(k, v)]), r4)
                              else None
                          | [] => None
                          end
                      | None => None
                      end
                    else None
                | [] => None
                end
            | None => None
            end
          else None
      | [] => None
      end
  end
with parse_elements (fuel : nat) (s : jsstring) (acc : list value)
  : option (value * jsstring) :=
  match fuel with
  | O => None
  | S f =>
      match parse_value f s with
      | Some (v, r) =>
          match skip_ws r with
          | c :: r1 =>
              if (c =? 44)%N then parse_elements f r1 (acc ++ [v])
              else if (c =? 93)%N then Some (JArray (acc ++ [v]), r1)
              else None
          | [] => None
          end
      | None => None
      end
  end.

(** [JSON.parse(text)]: the value of the whole text, or a [SyntaxError]. *)
Definition parse (text : jsstring) : result value :=
  match parse_value (2 * length text + 2) text with
  | Some (v, rest) =>
      match skip_ws rest with
      | [] => Ok v
      | _ :: _ => Throw (SyntaxError "Unexpected token in JSON")
      end
  | None => Throw (SyntaxError "Unexpected token in JSON")
  end.

End JSON.
Import JSON.

(* ================================================================= *)
(** ** Messages, the transport and the response generators *)

Module Chat.

Inductive ChatMessageRole := System | User | Assistant.

Definition role_eqb (a b : ChatMessageRole) : bool :=
  match a, b with
  | System, System | User, User | Assistant, Assistant => true
  | _, _ => false
  end.

(** A content part: a text part carries a [value]; every other part
    (image, tool result, ...) has another [type]. *)
Inductive part :=
| TextPart (value : jsstring)
| OtherPart.

Record IChatMessage := { role : ChatMessageRole; content : list part }.

(** [msg.content.map(part => part.type === 'text' ? part.value : '').join('')] *)
Definition content_text (msg : IChatMessage) : jsstring :=
  join (map (fun p => match p with TextPart v => v | OtherPart => [] end)
            (content msg)).

(** A message of the wire format, [{ role, content }]. *)
Record wire_message := { wire_role : jsstring; wire_content : jsstring }.

(** The streamed item [{ type: 'text', value }]. *)
Inductive delta := TextDelta (value : value).

(** What [fetch] is called with: the URL, the headers, and the members of
    the JSON body ([max_tokens] and [system] only when set). *)
Record request := {
  url : jsstring;
  headers : list (jsstring * jsstring);
  body_model : jsstring;
  body_messages : list wire_message;
  body_max_tokens : option N;
  body_stream : bool;
  body_system : option jsstring
}.

(** The transport as the generator meets it.  The results of the successive
    [reader.read()] calls: a buffer, end of data, or a rejection; a list
    that runs out stands for a read that never settles. *)
Inductive read_result :=
| Chunk (value : list byte)
| Done
| ReadRejected (e : error).

(** [response.body] is [None] when there is no readable body. *)
Record response := {
  ok : bool;
  statusText : jsstring;
  body : option (list read_result)
}.

Inductive fetch_result :=
| Resolved (r : response)
| Rejected (e : error)
| Pending.

Definition Error (m : jsstring) : error := {| name := js "Error"; message := m |}.

(** The rejection of a [fetch] or of a [read] whose signal was aborted. *)
Definition AbortError : error :=
  {| name := js "AbortError"; message := js "The operation was aborted." |}.

(** The transport when the cancellation token fires once the transport
    operations before number [k] have settled and before that one does
    ([0] is the [fetch], [S i] the read number [i]; the operation is
    pending, or the generator has yet to start it): the listener calls
    [abortController.abort()], and the operation rejects with an
    [AbortError]. *)
Fixpoint abort_read (i : nat) (reads : list read_result) : list read_result :=
  match i, reads with
  | O, _ => [ReadRejected AbortError]
  | S i', r :: rest => r :: abort_read i' rest
  | S _, [] => []
  end.

Definition cancel_at (k : nat) (f : fetch_result) : fetch_result :=
  match k, f with
  | O, _ => Rejected AbortError
  | S i, Resolved r =>
      Resolved {| ok := ok r; statusText := statusText r;
                  body := option_map (abort_read i) (body r) |}
  | S _, _ => f
  end.

(** What a generator does, in order. *)
Inductive effect :=
| Subscribe                 (* token.onCancellationRequested(...) *)
| Fetch (req : request)     (* await fetch(...) *)
| Read                      (* await reader.read() *)
| Yield (d : delta)         (* yield { type: 'text', value } *)
| Dispose.                  (* disposable.dispose() *)

(** How it ends: it returns, it throws, or it stays suspended on an
    operation that never settles. *)
Inductive completion :=
| Completed
| Threw (e : error)
| Suspended.

Definition run := (list effect * completion)%type.

Fixpoint yielded (log : list effect) : list delta :=
  match log with
  | [] => []
  | Yield d :: rest => d :: yielded rest
  | _ :: rest => yielded rest
  end.

Fixpoint count_subscribe (log : list effect) : nat :=
  match log with
  | [] => 0
  | Subscribe :: rest => S (count_subscribe rest)
  | _ :: rest => count_subscribe rest
  end.

Fixpoint count_dispose (log : list effect) : nat :=
  match log with
  | [] => 0
  | Dispose :: rest => S (count_dispose rest)
  | _ :: rest => count_dispose rest
  end.

Fixpoint count_read (log : list effect) : nat :=
  match log with
  | [] => 0
  | Read :: rest => S (count_read rest)
  | _ :: rest => count_read rest
  end.

(** *** The read loop

    [let buffer = ''; while (true) { ... }], the same text in the three
    generators but for the body of [for (const line of lines)]. *)

Record loop_state := { decoder : TextDecoder.t; buffer : jsstring }.

Definition loop_start : loop_state :=
  {| decoder := TextDecoder.create; buffer := [] |}.

(** One turn on a buffer [value]:
    [buffer += decoder.decode(value, { stream: true });
     const lines = buffer.split('\n'); buffer = lines.pop() || '';]
    gives the next state and the [lines] the [for] goes through. *)
Definition read_chunk (st : loop_state) (value : list byte)
  : loop_state * list jsstring :=
  let (d, text) := TextDecoder.decode (decoder st) value in
  let (lines, popped) := pop (split LF (buffer st ++ text)) in
  ({| decoder := d; buffer := or_empty popped |}, lines).

Section ReadLoop.

(** The deltas the body of the [for] yields on one line. *)
Variable on_line : jsstring -> list delta.

Fixpoint read_loop (st : loop_state) (reads : list read_result) : run :=
  match reads with
  | [] => ([Read], Suspended)
  | Done :: _ => ([Read], Completed)
  | ReadRejected e :: _ => ([Read], Threw e)
  | Chunk value :: rest =>
      let (st', lines) := read_chunk st value in
      let (log, c) := read_loop st' rest in
      (Read :: map Yield (flat_map on_line lines) ++ log, c)
  end.

(** The inner [try] block from the outcome of [await fetch(...)] on;
    [api] is the vendor's name in the error message. *)
Definition read_response (api : jsstring) (f : fetch_result) : run :=
  match f with
  | Pending => ([], Suspended)
  | Rejected e => ([], Threw e)
  | Resolved r =>
      if negb (ok r) then
        ([], Threw (Error (api ++ js " API error: " ++ statusText r)))
      else match body r with
           | None => ([], Threw (Error (js "No response body")))
           | Some reads => read_loop loop_start reads
           end
  end.

End ReadLoop.

(** *** The consumer

    [None]: it takes every item.  [Some n]: it calls [return()] on the
    iterator once it holds the item number [n] (a [for await] left by
    [break]); [Some 0] gives the generator up before its first [next()]. *)
Definition consumer := option nat.

(** The log up to the [Yield] number [n], when there is one. *)
Fixpoint upto_yield (n : nat) (log : list effect) : option (list effect) :=
  match n, log with
  | O, _ => Some []
  | S _, [] => None
  | S n', Yield d :: rest => option_map (cons (Yield d)) (upto_yield n' rest)
  | S _, e :: rest => option_map (cons e) (upto_yield n rest)
  end.

(** A [return()] at the [yield] number [n] ends the block there. *)
Definition returned_at (c : consumer) (r : run) : run :=
  match c with
  | None => r
  | Some n =>
      match upto_yield n (fst r) with
      | Some log => (log, Completed)
      | None => r
      end
  end.

(** [try { block } finally { disposable.dispose(); }] *)
Definition finally_dispose (r : run) : run :=
  match snd r with
  | Suspended => r
  | c => (fst r ++ [Dispose], c)
  end.

(** [try { ... } catch (error) { if (error.name === 'AbortError') { return; }
    throw error; }] *)
Definition catch_abort (r : run) : run :=
  match snd r with
  | Threw e => if str_eqb (name e) (js "AbortError") then (fst r, Completed) else r
  | _ => r
  end.

(** The body of a response generator around its inner [try] block
    [block]: the subscription to the token, the [finally] and the
    [catch]. *)
Definition generator (block : run) (c : consumer) : run :=
  match c with
  | Some O => ([], Completed)
  | _ =>
      let r := finally_dispose (returned_at c block) in
      catch_abort (Subscribe :: fst r, snd r)
  end.

(** What the host gives: the settings and the environment. *)
Record host := {
  getValue : jsstring -> option jsstring;
  process_env : option (jsstring -> option jsstring)
}.

(** [a || b] on strings that may be [undefined]. *)
Definition or_else (a b : option jsstring) : option jsstring :=
  match a with
  | Some (c :: s) => Some (c :: s)
  | _ => b
  end.

(** [a || 'literal'] *)
Definition or_literal (a : option jsstring) (literal : jsstring) : jsstring :=
  match a with
  | Some (c :: s) => c :: s
  | _ => literal
  end.

Definition falsy (a : option jsstring) : bool :=
  match a with
  | Some (_ :: _) => false
  | _ => true
  end.

(** What [sendChatRequest] hands to the generator it returns. *)
Record stream_args := {
  baseURL : jsstring;
  apiKey : jsstring;
  model : jsstring;
  messages : list wire_message;
  systemMessage : option IChatMessage
}.

(** [provideTokenCount], the same in the three providers: the argument is
    a string or a message, and the estimate is
    [Math.ceil(text.length / 4)]. *)
Inductive token_input :=
| OfString (text : jsstring)
| OfMessage (msg : IChatMessage).

Definition provideTokenCount (message : token_input) : nat :=
  let text :=
    match message with
    | OfString text => text
    | OfMessage msg => content_text msg
    end in
  Nat.div (length text + 3) 4.

End Chat.
Import Chat.

(* ================================================================= *)
(** ** [OpenAILanguageModelProvider] *)

Module OpenAI.

(** The third operand of the [||] chain in [sendChatRequest]: a key
    written in the source.  Its 164 characters are left out here; that the
    literal is not the empty string is all the code depends on. *)
Definition hardcodedKey : jsstring := js "sk-proj-(key literal of the source)".

Definition messageRole (r : ChatMessageRole) : jsstring :=
  match r with
  | System => js "system"
  | User => js "user"
  | Assistant => js "assistant"
  end.

Definition sendChatRequest (h : host) (modelId : jsstring)
  (msgs : list IChatMessage) : result stream_args :=
  let env :=
    match process_env h with
    | Some e => e (js "OPENAI_API_KEY")
    | None => None
    end in
  let apiKey :=
    or_literal (or_else env (getValue h (js "languageModels.openai.apiKey")))
               hardcodedKey in
  let baseURL :=
    or_literal (getValue h (js "languageModels.openai.baseURL"))
               (js "https://api.openai.com/v1") in
  match apiKey with
  | [] =>
      Throw (Error (js "OpenAI API key not configured. Please set OPENAI_API_KEY environment variable or languageModels.openai.apiKey in settings."))
  | _ :: _ =>
      let openaiMessages :=
        map (fun msg => {| wire_role := messageRole (role msg);
                           wire_content := content_text msg |}) msgs in
      Ok {| baseURL := baseURL; apiKey := apiKey;
            model := replace (js "openai-") [] modelId;
            messages := openaiMessages; systemMessage := None |}
  end.

(** [parsed.choices?.[0]?.delta?.content] *)
Definition content_of (parsed : value) : result value :=
  match member parsed (js "choices") with
  | Throw e => Throw e
  | Ok choices =>
      Ok (optional choices (fun c =>
          optional (get0 c) (fun first =>
          optional (get first (js "delta")) (fun d =>
          get d (js "content")))))
  end.

(** The [try] block on a frame body [data]: what it yields, or what it
    throws. *)
Definition try_block (data : jsstring) : result (list delta) :=
  match parse data with
  | Throw e => Throw e
  | Ok parsed =>
      match content_of parsed with
      | Throw e => Throw e
      | Ok content => Ok (if truthy content then [TextDelta content] else [])
      end
  end.

(** The body of [if (line.startsWith('data: '))] on [data = line.slice(6)]:
    [[DONE]] is passed over, and the [catch] drops whatever was thrown. *)
Definition on_data (data : jsstring) : list delta :=
  if str_eqb data (js "[DONE]") then []
  else match try_block data with
       | Ok ds => ds
       | Throw _ => []
       end.

(** The body of [for (const line of lines)]. *)
Definition on_line (line : jsstring) : list delta :=
  if startsWith (js "data: ") line then on_data (slice 6 line) else [].

Definition fetch_request (a : stream_args) : request :=
  {| url := baseURL a ++ js "/chat/completions";
     headers := [(js "Content-Type", js "application/json");
                 (js "Authorization", js "Bearer " ++ apiKey a)];
     body_model := model a;
     body_messages := messages a;
     body_max_tokens := None;
     body_stream := true;
     body_system := None |}.

(** The inner [try] block: the [fetch], then the response. *)
Definition inner_try (a : stream_args) (f : fetch_result) : run :=
  let r := read_response on_line (js "OpenAI") f in
  (Fetch (fetch_request a) :: fst r, snd r).

Definition streamOpenAIResponse (a : stream_args) (f : fetch_result)
  (c : consumer) : run :=
  generator (inner_try a f) c.

End OpenAI.

(* ================================================================= *)
(** ** [AnthropicLanguageModelProvider] *)

Module Anthropic.

Definition sendChatRequest (h : host) (modelId : jsstring)
  (msgs : list IChatMessage) : result stream_args :=
  let apiKey := getValue h (js "languageModels.anthropic.apiKey") in
  let baseURL :=
    or_literal (getValue h (js "languageModels.anthropic.baseURL"))
               (js "https://api.anthropic.com/v1") in
  match apiKey with
  | Some (c :: k) =>
      let anthropicMessages :=
        map (fun msg =>
               {| wire_role := if role_eqb (role msg) User then js "user"
                               else js "assistant";
                  wire_content := content_text msg |})
            (filter (fun msg => negb (role_eqb (role msg) System)) msgs) in
      let systemMessage := find (fun msg => role_eqb (role msg) System) msgs in
      Ok {| baseURL := baseURL; apiKey := c :: k;
            model := replace (js "anthropic-") [] modelId;
            messages := anthropicMessages; systemMessage := systemMessage |}
  | _ =>
      Throw (Error (js "Anthropic API key not configured. Please set languageModels.anthropic.apiKey in settings."))
  end.

(** [const body = { model, messages, max_tokens: 8192, stream: true };
    if (systemMessage) { body.system = ...; }] and the [fetch] options. *)
Definition fetch_request (a : stream_args) : request :=
  {| url := baseURL a ++ js "/messages";
     headers := [(js "Content-Type", js "application/json");
                 (js "x-api-key", apiKey a);
                 (js "anthropic-version", js "2023-06-01")];
     body_model := model a;
     body_messages := messages a;
     body_max_tokens := Some 8192%N;
     body_stream := true;
     body_system := option_map content_text (systemMessage a) |}.

(** [parsed.delta?.text] *)
Definition text_of (parsed : value) : value :=
  optional (get parsed (js "delta")) (fun d => get d (js "text")).

(** [parsed.type === 'content_block_delta'] *)
Definition is_content_block_delta (parsed : value) : bool :=
  match get parsed (js "type") with
  | JString s => str_eqb s (js "content_block_delta")
  | _ => false
  end.

(** The [try] block on a frame body [data]. *)
Definition try_block (data : jsstring) : result (list delta) :=
  match parse data with
  | Throw e => Throw e
  | Ok parsed =>
      match member parsed (js "type") with
      | Throw e => Throw e
      | Ok _ =>
          Ok (if is_content_block_delta parsed && truthy (text_of parsed)
              then [TextDelta (text_of parsed)] else [])
      end
  end.

Definition on_data (data : jsstring) : list delta :=
  match try_block data with
  | Ok ds => ds
  | Throw _ => []
  end.

Definition on_line (line : jsstring) : list delta :=
  if startsWith (js "data: ") line then on_data (slice 6 line) else [].

(** The inner [try] block: the [fetch], then the response. *)
Definition inner_try (a : stream_args) (f : fetch_result) : run :=
  let r := read_response on_line (js "Anthropic") f in
  (Fetch (fetch_request a) :: fst r, snd r).

Definition streamAnthropicResponse (a : stream_args) (f : fetch_result)
  (c : consumer) : run :=
  generator (inner_try a f) c.

End Anthropic.

(* ================================================================= *)
(** ** Model metadata *)

Module Metadata.

(** [ILanguageModelChatMetadata], the members the providers set that the
    agent or the directory reads. *)
Record t := {
  name : jsstring;
  id : jsstring;
  vendor : jsstring;
  family : jsstring;
  maxInputTokens : N;
  maxOutputTokens : N;
  isDefault : bool;
  isUserSelectable : bool
}.

(** [ILanguageModelChatMetadataAndIdentifier] *)
Record entry := { identifier : jsstring; metadata : t }.

End Metadata.

(* ================================================================= *)
(** ** [OllamaLanguageModelProvider] *)

Module Ollama.

(** [modelName.replace(/\./g, '_dot_').replace(/:/g, '_colon_')] *)
Definition encodedName (modelName : jsstring) : jsstring :=
  replaceAll (js ":") (js "_colon_") (replaceAll (js ".") (js "_dot_") modelName).

(** [`ollama-${encodedName}`] *)
Definition modelId (modelName : jsstring) : jsstring :=
  js "ollama-" ++ encodedName modelName.

(** The [for (const model of models)] loop, [modelList] being the list
    pushed to so far. *)
Fixpoint push_models (models : list jsstring) (modelList : list Metadata.entry)
  : list Metadata.entry :=
  match models with
  | [] => modelList
  | modelName :: rest =>
      push_models rest
        (modelList ++
         [{| Metadata.identifier := modelId modelName;
             Metadata.metadata :=
               {| Metadata.name := js "Ollama: " ++ modelName;
                  Metadata.id := modelName;
                  Metadata.vendor := js "ollama";
                  Metadata.family := hd [] (split 58 modelName);
                  Metadata.maxInputTokens := 128000;
                  Metadata.maxOutputTokens := 4096;
                  Metadata.isDefault := Nat.eqb (length modelList) 0;
                  Metadata.isUserSelectable := true |} |}])
  end.

(** [provideLanguageModelChatInfo] on the names [/api/tags] lists; [None]
    when the request fails or its status is not a success. *)
Definition provideLanguageModelChatInfo (tags : option (list jsstring))
  : list Metadata.entry :=
  match tags with
  | None => []
  | Some models =>
      match push_models models [] with
      | [] =>
          [{| Metadata.identifier := js "ollama-suggestion";
              Metadata.metadata :=
                {| Metadata.name := js "Ollama (No models installed)";
                   Metadata.id := js "none";
                   Metadata.vendor := js "ollama";
                   Metadata.family := js "ollama";
                   Metadata.maxInputTokens := 0;
                   Metadata.maxOutputTokens := 0;
                   Metadata.isDefault := false;
                   Metadata.isUserSelectable := false |} |}]
      | modelList => modelList
      end
  end.

(** [modelId.replace('ollama-', '')], then
    [encodedName.replace(/_dot_/g, '.').replace(/_colon_/g, ':')] *)
Definition decodedModel (modelId : jsstring) : jsstring :=
  let encodedName := replace (js "ollama-") [] modelId in
  replaceAll (js "_colon_") (js ":") (replaceAll (js "_dot_") (js ".") encodedName).

Definition sendChatRequest (h : host) (modelId : jsstring)
  (msgs : list IChatMessage) : result stream_args :=
  let baseURL :=
    or_literal (getValue h (js "languageModels.ollama.baseURL"))
               (js "http://localhost:11434") in
  Ok {| baseURL := baseURL; apiKey := [];
        model := decodedModel modelId;
        messages :=
          map (fun msg => {| wire_role := OpenAI.messageRole (role msg);
                             wire_content := content_text msg |}) msgs;
        systemMessage := None |}.

(** The [try] block on a line: [parsed.message?.content]. *)
Definition try_block (line : jsstring) : result (list delta) :=
  match parse line with
  | Throw e => Throw e
  | Ok parsed =>
      match member parsed (js "message") with
      | Throw e => Throw e
      | Ok message =>
          let content := optional message (fun m => get m (js "content")) in
          Ok (if truthy content then [TextDelta content] else [])
      end
  end.

Definition on_line (line : jsstring) : list delta :=
  match trim line with
  | [] => []
  | _ :: _ =>
      match try_block line with
      | Ok ds => ds
      | Throw _ => []
      end
  end.

Definition fetch_request (a : stream_args) : request :=
  {| url := baseURL a ++ js "/api/chat";
     headers := [(js "Content-Type", js "application/json")];
     body_model := model a;
     body_messages := messages a;
     body_max_tokens := None;
     body_stream := true;
     body_system := None |}.

(** The inner [try] block: the [fetch], then the response. *)
Definition inner_try (a : stream_args) (f : fetch_result) : run :=
  let r := read_response on_line (js "Ollama") f in
  (Fetch (fetch_request a) :: fst r, snd r).

Definition streamOllamaResponse (a : stream_args) (f : fetch_result)
  (c : consumer) : run :=
  generator (inner_try a f) c.

End Ollama.

(* ================================================================= *)
(** ** The model directory *)

Module Directory.

(** Modelled from the spec: [ILanguageModelsService] (its implementation
    is in [common/languageModels.ts], outside this part of the repository).
    The directory holds, per vendor and in the order the vendors were
    registered, the latest snapshot of that vendor's descriptors. *)
Definition t := list (jsstring * list Metadata.entry).

Definition descriptors (dir : t) : list Metadata.entry :=
  concat (map snd dir).

(** Modelled from the spec: [getLanguageModelIds()] lists the identifiers
    of every snapshot, the vendors in registration order. *)
Definition getLanguageModelIds (dir : t) : list jsstring :=
  map Metadata.identifier (descriptors dir).

(** Modelled from the spec: [lookupLanguageModel(modelId)] resolves an
    identifier to its descriptor's metadata, [None] being [undefined]. *)
Definition lookupLanguageModel (dir : t) (modelId : jsstring)
  : option Metadata.t :=
  option_map Metadata.metadata
    (find (fun e => str_eqb (Metadata.identifier e) modelId) (descriptors dir)).

(** Modelled from the spec: [selectDefault()] scans all current snapshots in
    vendor-registration order and returns the first descriptor with
    [isDefault = true]; if none is found, the first descriptor of the first
    non-empty snapshot in registration order; if every snapshot is empty,
    NotFound ([None]). *)
Definition first_default (dir : t) : option Metadata.entry :=
  find (fun e => Metadata.isDefault (Metadata.metadata e)) (descriptors dir).

Definition first_nonempty (dir : t) : option Metadata.entry :=
  match find (fun vs => match snd vs with [] => false | _ :: _ => true end) dir with
  | Some (_, e :: _) => Some e
  | _ => None
  end.

Definition selectDefault (dir : t) : option Metadata.entry :=
  match first_default dir with
  | Some e => Some e
  | None => first_nonempty dir
  end.

End Directory.

(* ================================================================= *)
(** ** [CustomChatAgentImplementation.invoke]: choosing the model *)

Module Agent.

(** The outcome of the selection: the model the request goes to, or the
    [errorDetails] message [invoke] returns. *)
Inductive selection :=
| Selected (selectedModelId : jsstring) (selectedModel : Metadata.t)
| NoModel (message : jsstring).

(** The [for (const modelId of models)] loop: the first identifier whose
    metadata has [isDefault] set, [None] when the loop ends with
    [selectedModelId] still [null]. *)
Fixpoint find_default (lookupLanguageModel : jsstring -> option Metadata.t)
  (models : list jsstring) : option (jsstring * Metadata.t) :=
  match models with
  | [] => None
  | modelId :: rest =>
      match lookupLanguageModel modelId with
      | Some model =>
          if Metadata.isDefault model then Some (modelId, model)
          else find_default lookupLanguageModel rest
      | None => find_default lookupLanguageModel rest
      end
  end.

(** [invoke], from [getLanguageModelIds()] to the model selected. *)
Definition select (models : list jsstring)
  (lookupLanguageModel : jsstring -> option Metadata.t) : selection :=
  match models with
  | [] => NoModel (js "No language models available")
  | first :: _ =>
      let found := find_default lookupLanguageModel models in
      let selectedModelId := option_map fst found in
      let selectedModel := option_map snd found in
      let '(selectedModelId, selectedModel) :=
        if falsy selectedModelId
        then (Some first, lookupLanguageModel first)
        else (selectedModelId, selectedModel) in
      match selectedModelId, selectedModel with
      | Some (c :: s), Some model => Selected (c :: s) model
      | _, _ => NoModel (js "No suitable model found")
      end
  end.

Definition invoke_select (dir : Directory.t) : selection :=
  select (Directory.getLanguageModelIds dir) (Directory.lookupLanguageModel dir).












End Agent.

(* ================================================================= *)
(** ** [provideLanguageModelChatInfo] of the OpenAI and Anthropic providers *)

Module OpenAIInfo.

(** The provider is disabled: [return [];] comes first, and the model list
    after it is commented out. *)
Definition provideLanguageModelChatInfo (h : host) : list Metadata.entry := [].

End OpenAIInfo.

Module AnthropicInfo.

Definition provideLanguageModelChatInfo (h : host) : list Metadata.entry :=
  match getValue h (js "languageModels.anthropic.apiKey") with
  | Some (_ :: _) =>
      [{| Metadata.identifier := js "anthropic-claude-3.5-sonnet";
          Metadata.metadata :=
            {| Metadata.name := js "Claude 3.5 Sonnet";
               Metadata.id := js "claude-3-5-sonnet-20241022";
               Metadata.vendor := js "anthropic";
               Metadata.family := js "claude-3.5";
               Metadata.maxInputTokens := 200000;
               Metadata.maxOutputTokens := 8192;
               Metadata.isDefault := false;
               Metadata.isUserSelectable := true |} |}]
  | _ => []
  end.

End AnthropicInfo.

(* ================================================================= *)
(** ** [CoreLanguageModelVendorsContribution] *)

Module CoreVendors.

(** The value stored for a vendor:
    [{ vendor, displayName, managementCommand: undefined }]. *)
Record descriptor := {
  vendor : jsstring;
  displayName : jsstring;
  managementCommand : option jsstring
}.

(** A [Map] with string keys: its entries in insertion order. *)
Definition Map := list (jsstring * descriptor).

(** [map.set(k, v)]: the value of an existing key is replaced where the
    key stands, a new key goes last. *)
Fixpoint set (k : jsstring) (v : descriptor) (m : Map) : Map :=
  match m with
  | [] => [(k, v)]
  | (k', v') :: rest =>
      if str_eqb k' k then (k, v) :: rest else (k', v') :: set k v rest
  end.

(** [map.get(k)] *)
Fixpoint get (k : jsstring) (m : Map) : option descriptor :=
  match m with
  | [] => None
  | (k', v) :: rest => if str_eqb k' k then Some v else get k rest
  end.

Definition core (v d : string) : descriptor :=
  {| vendor := js v; displayName := js d; managementCommand := None |}.

(** [registerCoreVendors] on [service._vendors], [None] when the service
    has no such member: the map is then left alone. *)
Definition registerCoreVendors (_vendors : option Map) : option Map :=
  match _vendors with
  | Some m =>
      Some (set (js "ollama") (core "ollama" "Ollama")
             (set (js "anthropic") (core "anthropic" "Anthropic")
               (set (js "openai") (core "openai" "OpenAI") m)))
  | None => None
  end.

End CoreVendors.

(* ================================================================= *)
(** ** [LanguageModelProvidersContribution] *)

Module Providers.


End Providers.

(* ================================================================= *)
(** ** Notions the statements use *)

Module Notions.

(** The lines a text is cut into, and the segment after its last line
    feed, as one turn of the read loop computes them. *)
Definition complete_lines (text : jsstring) : list jsstring :=
  fst (pop (split LF text)).

Definition partial_line (text : jsstring) : jsstring :=
  or_empty (snd (pop (split LF text))).

(** Lines written back, each closed by a line feed. *)
Definition terminate (lines : list jsstring) : jsstring :=
  concat (map (fun l => l ++ [LF]) lines).

(** The lines the [for] goes through over successive buffers, and the
    state the loop is left in. *)
Fixpoint loop_lines (st : loop_state) (chunks : list (list byte))
  : list jsstring * loop_state :=
  match chunks with
  | [] => ([], st)
  | value :: rest =>
      let (st', lines) := read_chunk st value in
      let (lines', st'') := loop_lines st' rest in
      (lines ++ lines', st'')
  end.

Definition emitted_lines (chunks : list (list byte)) : list jsstring :=
  fst (loop_lines loop_start chunks).

Definition retained (chunks : list (list byte)) : jsstring :=
  buffer (snd (loop_lines loop_start chunks)).

(** The text of the whole byte sequence. *)
Definition decoded_text (bytes : list byte) : jsstring :=
  snd (TextDecoder.decode TextDecoder.create bytes).

(** The frame bodies of the SSE dialect among lines. *)
Definition sse_frames (lines : list jsstring) : list jsstring :=
  flat_map (fun line =>
              if startsWith (js "data: ") line then [slice 6 line] else [])
           lines.

(** A response that delivers the buffers [chunks], then the end of data. *)
Definition delivers (chunks : list (list byte)) : fetch_result :=
  Resolved {| ok := true; statusText := js "OK";
              body := Some (map Chunk chunks ++ [Done]) |}.

(** What a consumer sees of a run: the items and how it ends. *)
Definition observed (r : run) : list delta * completion :=
  (yielded (fst r), snd r).

(** The completion the [catch] leaves. *)
Definition caught (c : completion) : completion :=
  match c with
  | Threw e => if str_eqb (name e) (js "AbortError") then Completed else Threw e
  | _ => c
  end.

(** The effects of an inner [try] block: neither the subscription nor its
    disposal. *)
Definition inner_effect (e : effect) : Prop :=
  match e with
  | Subscribe | Dispose => False
  | _ => True
  end.

(** A log that holds the subscription to the token first, its disposal
    last, and neither in between; the empty log is that of a generator
    never started. *)
Definition released (log : list effect) : Prop :=
  log = []
  \/ exists mid, log = Subscribe :: mid ++ [Dispose] /\ Forall inner_effect mid.

(** A descriptor of the vendor [v] as the examples write them,
    [{ id, isDefault }]. *)
Definition descriptor (v : string) (id : string) (isDefault : bool)
  : Metadata.entry :=
  {| Metadata.identifier := js id;
     Metadata.metadata :=
       {| Metadata.name := js id; Metadata.id := js id;
          Metadata.vendor := js v; Metadata.family := js v;
          Metadata.maxInputTokens := 128000; Metadata.maxOutputTokens := 4096;
          Metadata.isDefault := isDefault; Metadata.isUserSelectable := true |} |}.

(** What the two replacements of the encoding put for one code unit: the
    full stop (46) becomes [_dot_], the colon (58) becomes [_colon_]. *)
Definition dot_token (x : N) : jsstring :=
  if (46 =? x)%N then js "_dot_" else [x].

Definition colon_token (x : N) : jsstring :=
  if (58 =? x)%N then js "_colon_" else [x].

(** The inner [try] block of the three generators: the [fetch] of [req],
    then the response read with the line handler [on_line]. *)
Definition inner_block (on_line : jsstring -> list delta) (api : jsstring)
  (req : request) (f : fetch_result) : run :=
  let r := read_response on_line api f in
  (Fetch req :: fst r, snd r).

Fixpoint count_fetch (log : list effect) : nat :=
  match log with
  | [] => 0
  | Fetch _ :: rest => S (count_fetch rest)
  | _ :: rest => count_fetch rest
  end.

(** The three providers, and what each one's response generator is made
    of. *)
Inductive provider := OpenAIProvider | AnthropicProvider | OllamaProvider.

Definition stream_of (v : provider)
  : stream_args -> fetch_result -> consumer -> run :=
  match v with
  | OpenAIProvider => OpenAI.streamOpenAIResponse
  | AnthropicProvider => Anthropic.streamAnthropicResponse
  | OllamaProvider => Ollama.streamOllamaResponse
  end.

Definition on_line_of (v : provider) : jsstring -> list delta :=
  match v with
  | OpenAIProvider => OpenAI.on_line
  | AnthropicProvider => Anthropic.on_line
  | OllamaProvider => Ollama.on_line
  end.

Definition request_of (v : provider) : stream_args -> request :=
  match v with
  | OpenAIProvider => OpenAI.fetch_request
  | AnthropicProvider => Anthropic.fetch_request
  | OllamaProvider => Ollama.fetch_request
  end.

Definition api_of (v : provider) : jsstring :=
  match v with
  | OpenAIProvider => js "OpenAI"
  | AnthropicProvider => js "Anthropic"
  | OllamaProvider => js "Ollama"
  end.

(** [typeof process !== 'undefined' && process.env?.['OPENAI_API_KEY']], as
    a string when it is one. *)
Definition openai_env_key (h : host) : option jsstring :=
  match process_env h with
  | Some e => e (js "OPENAI_API_KEY")
  | None => None
  end.

(** The part of a text before its first separator [sep]. *)
Fixpoint before (sep : N) (s : jsstring) : jsstring :=
  match s with
  | [] => []
  | c :: s' => if N.eqb c sep then [] else c :: before sep s'
  end.

(** The transport when the cancellation token fires while the generator
    is suspended at its [yield] number [j], the consumer holding that
    item: the reads made up to there have settled, and the next one
    rejects.  [stream] is the run on a transport when nothing is
    cancelled. *)
Definition cancel_at_yield (stream : fetch_result -> run) (j : nat)
  (f : fetch_result) : fetch_result :=
  match upto_yield j (fst (stream f)) with
  | Some p => cancel_at (S (count_read p)) f
  | None => f
  end.

(** The bytes of a text of the source, and the same with every apostrophe
    read as a double quote. *)
Definition bytes (s : string) : list byte := list_byte_of_string s.

Definition qbytes (s : string) : list byte :=
  map (fun b => if Byte.eqb b x27 then x22 else b) (bytes s).

Arguments bytes s%_string.
Arguments qbytes s%_string.

End Notions.
Import Notions.

(* ================================================================= *)
(** ** Strings: facts on [split], [pop] and the decoder *)

Section SplitFacts.

Lemma split_nonempty sep s : split sep s <> [].
Proof.
  destruct s as [|c s]; simpl; [discriminate|].
  destruct (N.eqb c sep); [discriminate|].
  destruct (split sep s); discriminate.
Qed.

Lemma pop_cons {A} (x y : A) (xs : list A) :
  pop (x :: y :: xs) = (x :: fst (pop (y :: xs)), snd (pop (y :: xs))).
Proof.
  change (pop (x :: y :: xs))
    with (let (init, popped) := pop (y :: xs) in (x :: init, popped)).
  destruct (pop (y :: xs)). reflexivity.
Qed.

Lemma complete_lines_nil : complete_lines [] = [].
Proof. reflexivity. Qed.

Lemma partial_line_nil : partial_line [] = [].
Proof. reflexivity. Qed.

Lemma lines_LF s :
  complete_lines (LF :: s) = [] :: complete_lines s
  /\ partial_line (LF :: s) = partial_line s.
Proof.
  unfold complete_lines, partial_line. simpl split.
  pose proof (split_nonempty LF s) as Hne.
  destruct (split LF s) as [|l ls]; [congruence|].
  rewrite pop_cons. split; reflexivity.
Qed.

Lemma or_empty_some (s : jsstring) : or_empty (Some s) = s.
Proof. destruct s; reflexivity. Qed.

Lemma lines_other c s :
  c <> LF ->
  (complete_lines s = [] /\ complete_lines (c :: s) = []
   /\ partial_line (c :: s) = c :: partial_line s)
  \/ (exists l ls, complete_lines s = l :: ls
      /\ complete_lines (c :: s) = (c :: l) :: ls
      /\ partial_line (c :: s) = partial_line s).
Proof.
  intros Hc. unfold complete_lines, partial_line. simpl split.
  apply N.eqb_neq in Hc. rewrite Hc.
  pose proof (split_nonempty LF s) as Hne.
  destruct (split LF s) as [|l [|l2 ls]]; [congruence| |].
  - left. simpl. destruct l; auto.
  - right. exists l, (fst (pop (l2 :: ls))).
    rewrite !pop_cons. simpl fst. simpl snd. auto.
Qed.

(** A text is its complete lines, each closed by a line feed, followed by
    its partial line; no line feed is inside either. *)
Lemma lines_decompose s :
  terminate (complete_lines s) ++ partial_line s = s
  /\ Forall (fun l => ~ In LF l) (complete_lines s)
  /\ ~ In LF (partial_line s).
Proof.
  induction s as [|c s (Heq & Hall & Hp)].
  - rewrite complete_lines_nil, partial_line_nil. simpl. auto.
  - destruct (N.eq_dec c LF) as [->|Hc].
    + destruct (lines_LF s) as [-> ->]. simpl. rewrite <- Heq at 3.
      repeat split; auto.
    + destruct (lines_other c s Hc) as [(E0 & E1 & E2)|(l & ls & E0 & E1 & E2)].
      * rewrite E1, E2. rewrite E0 in Heq. simpl in Heq.
        split; [simpl; now rewrite Heq|]. split; [constructor|].
        intros [H|H]; [congruence | auto].
      * rewrite E1, E2. rewrite E0 in Heq, Hall. unfold terminate in *.
        simpl in Heq. inversion Hall as [|? ? Hl Hls]; subst.
        split; [simpl; rewrite <- app_assoc in *; simpl; now rewrite Heq|].
        split; [|assumption].
        constructor; [|assumption]. intros [H|H]; [congruence | auto].
Qed.

Lemma app_LF_inj (l l' r r' : jsstring) :
  ~ In LF l -> ~ In LF l' ->
  l ++ LF :: r = l' ++ LF :: r' -> l = l' /\ r = r'.
Proof.
  revert l'. induction l as [|c l IH]; intros [|c' l'] Hl Hl' E; simpl in *.
  - inversion E; auto.
  - inversion E; subst. exfalso; auto.
  - inversion E; subst. exfalso; auto.
  - inversion E; subst. destruct (IH l') as [-> ->]; auto.
Qed.

(** The decomposition is the only one. *)
Lemma lines_unique ls ls' (p p' : jsstring) :
  Forall (fun l => ~ In LF l) ls -> Forall (fun l => ~ In LF l) ls' ->
  ~ In LF p -> ~ In LF p' ->
  terminate ls ++ p = terminate ls' ++ p' -> ls = ls' /\ p = p'.
Proof.
  unfold terminate.
  revert ls'. induction ls as [|l ls IH]; intros [|l' ls'] H1 H2 Hp Hp' E; simpl in *.
  - auto.
  - exfalso. apply Hp. rewrite E. rewrite <- !app_assoc. simpl.
    apply in_or_app. right. left. reflexivity.
  - exfalso. apply Hp'. rewrite <- E. rewrite <- !app_assoc. simpl.
    apply in_or_app. right. left. reflexivity.
  - inversion H1; subst. inversion H2; subst.
    rewrite <- !app_assoc in E. simpl in E.
    apply app_LF_inj in E; auto. destruct E as [-> E].
    destruct (IH ls') as [-> ->]; auto.
Qed.

Lemma terminate_app a b : terminate (a ++ b) = terminate a ++ terminate b.
Proof. unfold terminate. rewrite map_app, concat_app. reflexivity. Qed.

(** Cutting a text that arrives in two pieces: the lines of the first
    piece, then the lines of its partial line followed by the second. *)
Lemma lines_app a b :
  complete_lines (a ++ b)
  = complete_lines a ++ complete_lines (partial_line a ++ b)
  /\ partial_line (a ++ b) = partial_line (partial_line a ++ b).
Proof.
  destruct (lines_decompose (a ++ b)) as (E & F & P).
  destruct (lines_decompose a) as (Ea & Fa & Pa).
  destruct (lines_decompose (partial_line a ++ b)) as (Eb & Fb & Pb).
  apply lines_unique; auto.
  - apply Forall_app; auto.
  - rewrite E, terminate_app, <- app_assoc, Eb, app_assoc, Ea. reflexivity.
Qed.

End SplitFacts.

Section DecoderFacts.

Lemma decode_app d a b :
  TextDecoder.decode d (a ++ b)
  = let (d1, o1) := TextDecoder.decode d a in
    let (d2, o2) := TextDecoder.decode d1 b in
    (d2, o1 ++ o2).
Proof.
  revert d. induction a as [|x a IH]; intros d; simpl.
  - destruct (TextDecoder.decode d b). reflexivity.
  - destruct (TextDecoder.step d x) as [d1 o1]. rewrite IH.
    destruct (TextDecoder.decode d1 a) as [d2 o2].
    destruct (TextDecoder.decode d2 b) as [d3 o3].
    rewrite app_assoc. reflexivity.
Qed.

End DecoderFacts.

(* ================================================================= *)
(** ** The read loop over successive buffers *)

Section LoopFacts.

Lemma lines_of_partial p :
  ~ In LF p -> complete_lines p = [] /\ partial_line p = p.
Proof.
  intros Hp. destruct (lines_decompose p) as (E & F & P).
  apply lines_unique; auto.
Qed.

Lemma read_chunk_eq st value :
  read_chunk st value
  = ({| decoder := fst (TextDecoder.decode (decoder st) value);
        buffer := partial_line
                    (buffer st ++ snd (TextDecoder.decode (decoder st) value)) |},
     complete_lines (buffer st ++ snd (TextDecoder.decode (decoder st) value))).
Proof.
  unfold read_chunk, partial_line, complete_lines.
  destruct (TextDecoder.decode (decoder st) value) as [d text]. simpl.
  destruct (pop (split LF (buffer st ++ text))). reflexivity.
Qed.

(** Over any buffers, the loop has gone through the complete lines of the
    text decoded so far and holds its partial line. *)
Lemma loop_lines_spec chunks : forall st,
  ~ In LF (buffer st) ->
  let text := snd (TextDecoder.decode (decoder st) (concat chunks)) in
  fst (loop_lines st chunks) = complete_lines (buffer st ++ text)
  /\ buffer (snd (loop_lines st chunks)) = partial_line (buffer st ++ text)
  /\ decoder (snd (loop_lines st chunks))
     = fst (TextDecoder.decode (decoder st) (concat chunks)).
Proof.
  induction chunks as [|value rest IH]; intros st Hb; simpl.
  - rewrite app_nil_r. destruct (lines_of_partial _ Hb) as [-> ->]. auto.
  - rewrite read_chunk_eq, decode_app.
    destruct (TextDecoder.decode (decoder st) value) as [d1 t1] eqn:E1.
    simpl fst; simpl snd.
    set (st' := {| decoder := d1; buffer := partial_line (buffer st ++ t1) |}).
    assert (Hb' : ~ In LF (buffer st')) by apply lines_decompose.
    specialize (IH st' Hb'). simpl in IH.
    destruct (loop_lines st' rest) as [lines' st''].
    destruct (TextDecoder.decode d1 (concat rest)) as [d2 t2].
    simpl in *. destruct IH as (I1 & I2 & I3).
    rewrite app_assoc.
    destruct (lines_app (buffer st ++ t1) t2) as [-> ->].
    rewrite I1, I2, I3. auto.
Qed.

Lemma emitted_lines_eq chunks :
  emitted_lines chunks = complete_lines (decoded_text (concat chunks))
  /\ retained chunks = partial_line (decoded_text (concat chunks)).
Proof.
  unfold emitted_lines, retained, decoded_text.
  destruct (loop_lines_spec chunks loop_start) as (H1 & H2 & _);
    [simpl; auto|].
  simpl in H1, H2. auto.
Qed.

Lemma yielded_app l1 l2 : yielded (l1 ++ l2) = yielded l1 ++ yielded l2.
Proof.
  induction l1 as [|e l1 IH]; simpl; [reflexivity|].
  destruct e; simpl; rewrite IH; reflexivity.
Qed.

Lemma yielded_Yield ds : yielded (map Yield ds) = ds.
Proof. induction ds; simpl; congruence. Qed.

Variable on_line : jsstring -> list delta.

(** The items of a run that reads [chunks] first. *)
Lemma read_loop_chunks chunks : forall st tail,
  yielded (fst (read_loop on_line st (map Chunk chunks ++ tail)))
  = flat_map on_line (fst (loop_lines st chunks))
    ++ yielded (fst (read_loop on_line (snd (loop_lines st chunks)) tail))
  /\ snd (read_loop on_line st (map Chunk chunks ++ tail))
     = snd (read_loop on_line (snd (loop_lines st chunks)) tail).
Proof.
  induction chunks as [|value rest IH]; intros st tail; simpl.
  - auto.
  - destruct (read_chunk st value) as [st' lines].
    specialize (IH st' tail).
    destruct (read_loop on_line st' (map Chunk rest ++ tail)) as [log c].
    destruct (loop_lines st' rest) as [lines' st''].
    simpl in *. destruct IH as [I1 I2].
    rewrite yielded_app, yielded_Yield, I1, flat_map_app, app_assoc. auto.
Qed.

Lemma read_loop_delivers chunks :
  yielded (fst (read_loop on_line loop_start (map Chunk chunks ++ [Done])))
  = flat_map on_line (emitted_lines chunks)
  /\ snd (read_loop on_line loop_start (map Chunk chunks ++ [Done])) = Completed.
Proof.
  destruct (read_loop_chunks chunks loop_start [Done]) as [-> ->].
  simpl. rewrite app_nil_r. auto.
Qed.

End LoopFacts.

(* ================================================================= *)
(** ** The generator and its consumer *)

Section GeneratorFacts.

Lemma upto_yield_some log : forall n,
  n <= length (yielded log) ->
  exists p, upto_yield n log = Some p /\ yielded p = firstn n (yielded log).
Proof.
  induction log as [|e log IH]; intros [|n] Hn.
  - exists []. auto.
  - simpl in Hn. lia.
  - exists []. auto.
  - destruct e; simpl in Hn |- *;
      try (destruct (IH (S n) Hn) as (p & -> & Hp); eexists; split;
           [reflexivity | simpl; exact Hp]).
    destruct (IH n ltac:(lia)) as (p & -> & Hp).
    eexists; split; [reflexivity | simpl; congruence].
Qed.

Lemma upto_yield_none log : forall n,
  length (yielded log) < n -> upto_yield n log = None.
Proof.
  induction log as [|e log IH]; intros [|n] Hn; simpl in *; try lia; auto.
  destruct e; simpl in *; rewrite IH; auto; lia.
Qed.

Lemma observed_returned_at c r :
  observed (returned_at c r)
  = match c with
    | None => observed r
    | Some n =>
        if n <=? length (yielded (fst r))
        then (firstn n (yielded (fst r)), Completed)
        else observed r
    end.
Proof.
  destruct c as [n|]; [|reflexivity]. unfold returned_at.
  destruct (Nat.leb_spec n (length (yielded (fst r)))) as [H|H].
  - destruct (upto_yield_some (fst r) n H) as (p & -> & Hp).
    unfold observed. simpl. congruence.
  - rewrite (upto_yield_none (fst r) n H). reflexivity.
Qed.

Lemma observed_finally r :
  observed (finally_dispose r) = observed r.
Proof.
  unfold finally_dispose, observed. destruct r as [log c].
  destruct c; simpl; rewrite ?yielded_app, ?app_nil_r; reflexivity.
Qed.

Lemma observed_catch r :
  observed (catch_abort (Subscribe :: fst r, snd r))
  = (fst (observed r), caught (snd (observed r))).
Proof.
  unfold catch_abort, observed, caught. destruct r as [log c]. simpl.
  destruct c as [|e|]; try reflexivity.
  destruct (str_eqb (name e) (js "AbortError")); reflexivity.
Qed.

Lemma observed_generator b c :
  observed (generator b c)
  = match c with
    | Some O => ([], Completed)
    | _ => (fst (observed (returned_at c b)),
            caught (snd (observed (returned_at c b))))
    end.
Proof.
  unfold generator. destruct c as [[|n]|]; [reflexivity| |];
    rewrite observed_catch, observed_finally; reflexivity.
Qed.

(** A consumer tells two blocks apart only by their items and their
    completion. *)
Lemma generator_observed b1 b2 c :
  observed b1 = observed b2 ->
  observed (generator b1 c) = observed (generator b2 c).
Proof.
  intros H. rewrite !observed_generator, !observed_returned_at.
  unfold observed in *. inversion H as [[Hy Hc]].
  destruct c as [[|n]|]; reflexivity.
Qed.

End GeneratorFacts.

(* ================================================================= *)
(** ** The frame decoder (spec 4.1) *)

Section FrameDecoder.

Lemma openai_block_delivers a chunks :
  observed (OpenAI.inner_try a (delivers chunks))
  = (flat_map OpenAI.on_line (emitted_lines chunks), Completed).
Proof.
  unfold observed, OpenAI.inner_try, delivers, read_response. simpl.
  destruct (read_loop_delivers OpenAI.on_line chunks) as [-> ->]. reflexivity.
Qed.

Lemma anthropic_block_delivers a chunks :
  observed (Anthropic.inner_try a (delivers chunks))
  = (flat_map Anthropic.on_line (emitted_lines chunks), Completed).
Proof.
  unfold observed, Anthropic.inner_try, delivers, read_response. simpl.
  destruct (read_loop_delivers Anthropic.on_line chunks) as [-> ->]. reflexivity.
Qed.

Lemma emitted_lines_concat chunks :
  emitted_lines [concat chunks] = emitted_lines chunks.
Proof.
  destruct (emitted_lines_eq chunks) as [-> _].
  destruct (emitted_lines_eq [concat chunks]) as [-> _].
  simpl. rewrite app_nil_r. reflexivity.
Qed.

Lemma partial_line_closed body :
  body = [] \/ (exists b, body = b ++ [LF]) -> partial_line body = [].
Proof.
  intros [->|[b ->]]; [reflexivity|].
  destruct (lines_app b [LF]) as [_ ->].
  destruct (lines_decompose b) as (_ & _ & P).
  destruct (lines_decompose (partial_line b ++ [LF])) as (E & F & P').
  assert (H : complete_lines (partial_line b ++ [LF]) = [partial_line b]
              /\ partial_line (partial_line b ++ [LF]) = []).
  { apply lines_unique.
    - exact F.
    - constructor; [exact P | constructor].
    - exact P'.
    - intros [].
    - rewrite E. unfold terminate. simpl. rewrite !app_nil_r. reflexivity. }
  apply H.
Qed.

(** C1. However the bytes of a response are cut into buffers, the read
    loop goes through the same lines in the same order as on the bytes in
    one buffer; hence the same frame bodies, and the OpenAI generator
    yields the same items and ends the same way, for every consumer. *)
Theorem frame_decoding_chunk_invariant (chunks : list (list byte)) :
  emitted_lines chunks = emitted_lines [concat chunks]
  /\ sse_frames (emitted_lines chunks) = sse_frames (emitted_lines [concat chunks])
  /\ forall a c,
       observed (OpenAI.streamOpenAIResponse a (delivers chunks) c)
       = observed (OpenAI.streamOpenAIResponse a (delivers [concat chunks]) c).
Proof.
  rewrite emitted_lines_concat. repeat split.
  intros a c. unfold OpenAI.streamOpenAIResponse.
  apply generator_observed.
  rewrite !openai_block_delivers, emitted_lines_concat. reflexivity.
Qed.

(** C4. When the decoded text of a response is [body ++ tail], [body]
    being empty or closed by a line feed and [tail] holding none, the lines
    the loop goes through are exactly those of [body]: the segment [tail]
    is what the buffer holds when the data ends, and no item comes from
    it. *)
Theorem unterminated_final_line_dropped
  (chunks : list (list byte)) (body tail : jsstring) :
  decoded_text (concat chunks) = body ++ tail ->
  body = [] \/ (exists b, body = b ++ [LF]) ->
  ~ In LF tail ->
  terminate (emitted_lines chunks) = body
  /\ Forall (fun l => ~ In LF l) (emitted_lines chunks)
  /\ retained chunks = tail
  /\ forall a,
       observed (OpenAI.streamOpenAIResponse a (delivers chunks) None)
       = (flat_map OpenAI.on_line (complete_lines body), Completed).
Proof.
  intros Htext Hbody Htail.
  destruct (emitted_lines_eq chunks) as [El Er].
  destruct (lines_decompose (decoded_text (concat chunks))) as (E & F & P).
  destruct (lines_decompose body) as (Eb & Fb & Pb).
  rewrite (partial_line_closed body Hbody), app_nil_r in Eb.
  assert (H : complete_lines (decoded_text (concat chunks)) = complete_lines body
              /\ partial_line (decoded_text (concat chunks)) = tail).
  { apply lines_unique; auto. rewrite E, Eb. exact Htext. }
  destruct H as [Hl Hp].
  rewrite El, Er, Hl, Hp. repeat split; auto.
  intros a. unfold OpenAI.streamOpenAIResponse.
  rewrite observed_generator. unfold returned_at.
  rewrite openai_block_delivers, El, Hl. reflexivity.
Qed.

Lemma unterminated_final_line_dropped_witness :
  let chunks := [qbytes "data: {'choices':[{'delta':{'content':'hi'}}]}
data: {'choices':[{'del"] in
  terminate (emitted_lines chunks)
  = jq "data: {'choices':[{'delta':{'content':'hi'}}]}
"
  /\ retained chunks = jq "data: {'choices':[{'del".
Proof.
  intros chunks.
  destruct (unterminated_final_line_dropped chunks
              (jq "data: {'choices':[{'delta':{'content':'hi'}}]}
")
              (jq "data: {'choices':[{'del")) as (H1 & _ & H3 & _).
  - vm_compute. reflexivity.
  - right. exists (jq "data: {'choices':[{'delta':{'content':'hi'}}]}").
    vm_compute. reflexivity.
  - vm_compute. intros H.
    repeat (destruct H as [H|H]; [discriminate H|]). exact H.
  - split; assumption.
Defined.

End FrameDecoder.

(* ================================================================= *)
(** ** The delta extractors (spec 4.2) *)

Section DeltaExtractors.

Lemma str_eqb_eq a : forall b, str_eqb a b = true <-> a = b.
Proof.
  induction a as [|x a IH]; intros [|y b]; simpl; split; intros H;
    try discriminate; try reflexivity.
  - apply andb_true_iff in H. destruct H as [Hx Hab].
    apply N.eqb_eq in Hx. apply IH in Hab. congruence.
  - inversion H; subst. rewrite N.eqb_refl. simpl. apply IH. reflexivity.
Qed.

Lemma on_line_data_openai data :
  OpenAI.on_line (js "data: " ++ data) = OpenAI.on_data data.
Proof. reflexivity. Qed.

Lemma on_line_data_anthropic data :
  Anthropic.on_line (js "data: " ++ data) = Anthropic.on_data data.
Proof. reflexivity. Qed.

(** C5. On a frame body of the OpenAI stream: [[DONE]] gives no item; a
    body whose JSON has a non-empty string at [choices[0].delta.content]
    gives exactly the item carrying that string; a body [JSON.parse]
    rejects gives no item and the lines after it are gone through as if
    it were not there.  No frame makes the generator throw: on any
    buffers followed by the end of data it completes. *)
Theorem openai_delta_extraction :
  OpenAI.on_data (js "[DONE]") = []
  /\ (forall data parsed s,
        parse data = Ok parsed ->
        OpenAI.content_of parsed = Ok (JString s) ->
        s <> [] ->
        OpenAI.on_data data = [TextDelta (JString s)])
  /\ (forall data e,
        parse data = Throw e ->
        OpenAI.on_data data = []
        /\ forall lines,
             flat_map OpenAI.on_line ((js "data: " ++ data) :: lines)
             = flat_map OpenAI.on_line lines)
  /\ (forall a chunks,
        snd (OpenAI.streamOpenAIResponse a (delivers chunks) None) = Completed).
Proof.
  split; [reflexivity|]. split; [|split].
  - intros data parsed s Hp Hc Hs. unfold OpenAI.on_data.
    destruct (str_eqb data (js "[DONE]")) eqn:E.
    + apply str_eqb_eq in E. subst data. vm_compute in Hp. discriminate Hp.
    + unfold OpenAI.try_block. rewrite Hp, Hc.
      destruct s; [congruence | reflexivity].
  - intros data e Hp.
    assert (H : OpenAI.on_data data = []).
    { unfold OpenAI.on_data, OpenAI.try_block. rewrite Hp.
      destruct (str_eqb data (js "[DONE]")); reflexivity. }
    split; [exact H|]. intros lines.
    cbn [flat_map]. rewrite on_line_data_openai, H. reflexivity.
  - intros a chunks.
    pose proof (observed_generator (OpenAI.inner_try a (delivers chunks)) None) as H.
    unfold returned_at in H. rewrite openai_block_delivers in H.
    unfold observed in H. inversion H. reflexivity.
Qed.

Lemma openai_delta_extraction_witness :
  OpenAI.on_data (jq "{'choices':[{'delta':{'content':'hi'}}]}")
  = [TextDelta (JString (js "hi"))]
  /\ OpenAI.on_data (js "not-json") = [].
Proof.
  destruct openai_delta_extraction as (_ & Hok & Hbad & _). split.
  - apply (Hok _ (JObject [(js "choices",
              JArray [JObject [(js "delta",
                JObject [(js "content", JString (js "hi"))])]])])).
    + vm_compute. reflexivity.
    + vm_compute. reflexivity.
    + discriminate.
  - apply (Hbad _ (SyntaxError "Unexpected token in JSON")).
    vm_compute. reflexivity.
Defined.

(** C6, as the code has it.  On a frame body of the Anthropic stream an
    item is yielded exactly when the body parses, its [type] is
    [content_block_delta] and [delta.text] is truthy (a non-empty string,
    for a string); the item then carries [delta.text].  Every other body,
    malformed or of another type or with an empty [delta.text], gives no
    item, and nothing is thrown. *)
Theorem anthropic_delta_extraction (data : jsstring) :
  (Anthropic.on_data data <> [] <->
   exists parsed,
     parse data = Ok parsed
     /\ Anthropic.is_content_block_delta parsed = true
     /\ truthy (Anthropic.text_of parsed) = true)
  /\ (forall parsed,
        parse data = Ok parsed ->
        Anthropic.is_content_block_delta parsed = true ->
        truthy (Anthropic.text_of parsed) = true ->
        Anthropic.on_data data = [TextDelta (Anthropic.text_of parsed)])
  /\ (forall e, parse data = Throw e -> Anthropic.on_data data = [])
  /\ (forall a chunks,
        snd (Anthropic.streamAnthropicResponse a (delivers chunks) None)
        = Completed).
Proof.
  assert (Hyes : forall parsed,
        parse data = Ok parsed ->
        Anthropic.is_content_block_delta parsed = true ->
        truthy (Anthropic.text_of parsed) = true ->
        Anthropic.on_data data = [TextDelta (Anthropic.text_of parsed)]).
  { intros parsed Hp Ht Hx. unfold Anthropic.on_data, Anthropic.try_block.
    rewrite Hp. unfold member.
    destruct (nullish parsed) eqn:Hn.
    - destruct parsed; simpl in Hn; try discriminate;
        unfold Anthropic.is_content_block_delta in Ht; simpl in Ht; discriminate.
    - rewrite Ht, Hx. reflexivity. }
  split; [split|split; [exact Hyes|split]].
  - intros H. unfold Anthropic.on_data, Anthropic.try_block in H.
    destruct (parse data) as [parsed|e] eqn:Hp; [|congruence].
    exists parsed. unfold member in H.
    destruct (nullish parsed); [congruence|].
    destruct (Anthropic.is_content_block_delta parsed); [|simpl in H; congruence].
    destruct (truthy (Anthropic.text_of parsed)); [auto|simpl in H; congruence].
  - intros (parsed & Hp & Ht & Hx). rewrite (Hyes parsed Hp Ht Hx). discriminate.
  - intros e Hp. unfold Anthropic.on_data, Anthropic.try_block. rewrite Hp.
    reflexivity.
  - intros a chunks.
    pose proof (observed_generator (Anthropic.inner_try a (delivers chunks)) None) as H.
    unfold returned_at in H. rewrite anthropic_block_delivers in H.
    unfold observed in H. inversion H. reflexivity.
Qed.

Lemma anthropic_delta_extraction_witness :
  Anthropic.on_data (jq "{'type':'content_block_delta','delta':{'text':'hi'}}")
  = [TextDelta (JString (js "hi"))]
  /\ Anthropic.on_data (jq "{'type':'message_stop'}") = [].
Proof.
  split.
  - destruct (anthropic_delta_extraction
                (jq "{'type':'content_block_delta','delta':{'text':'hi'}}"))
      as (_ & H & _).
    apply (H (JObject [(js "type", JString (js "content_block_delta"));
                       (js "delta", JObject [(js "text", JString (js "hi"))])]));
      vm_compute; reflexivity.
  - destruct (anthropic_delta_extraction (jq "{'type':'message_stop'}"))
      as ([H _] & _).
    destruct (Anthropic.on_data (jq "{'type':'message_stop'}")) eqn:E;
      [reflexivity|].
    destruct H as (parsed & Hp & Ht & _); [discriminate|].
    vm_compute in Hp. inversion Hp; subst. vm_compute in Ht. discriminate Ht.
Defined.

(** C6 as stated fails: a [content_block_delta] event whose [delta.text] is
    present and is the empty string gives no item. *)
Lemma anthropic_empty_text_counterexample :
  let data := jq "{'type':'content_block_delta','delta':{'text':''}}" in
  (exists parsed,
     parse data = Ok parsed
     /\ Anthropic.is_content_block_delta parsed = true
     /\ Anthropic.text_of parsed = JString []
     /\ Anthropic.text_of parsed <> JUndefined)
  /\ Anthropic.on_data data = [].
Proof.
  split; [|vm_compute; reflexivity].
  eexists. split; [vm_compute; reflexivity|].
  split; [vm_compute; reflexivity|].
  split; [vm_compute; reflexivity | vm_compute; discriminate].
Qed.

End DeltaExtractors.

(* ================================================================= *)
(** ** The streaming request client (spec 4.3) *)

Section StreamingClient.

Lemma read_loop_inner on_line reads : forall st,
  Forall inner_effect (fst (read_loop on_line st reads)).
Proof.
  induction reads as [|r reads IH]; intros st; simpl.
  - repeat constructor.
  - destruct r as [value| |e]; try (repeat constructor).
    destruct (read_chunk st value) as [st' lines].
    specialize (IH st'). destruct (read_loop on_line st' reads) as [log c].
    simpl in *. constructor; [exact I|].
    apply Forall_app. split; [|exact IH].
    apply Forall_forall. intros e He. apply in_map_iff in He.
    destruct He as (d & <- & _). exact I.
Qed.

Lemma read_response_inner on_line api f :
  Forall inner_effect (fst (read_response on_line api f)).
Proof.
  unfold read_response. destruct f as [r|e|]; simpl; try constructor.
  destruct (ok r); simpl; [|constructor].
  destruct (body r); simpl; [apply read_loop_inner | constructor].
Qed.

Lemma upto_yield_inner log : forall n p,
  Forall inner_effect log -> upto_yield n log = Some p -> Forall inner_effect p.
Proof.
  induction log as [|e log IH]; intros [|n] p Hlog H; simpl in H;
    try (inversion H; subst; constructor).
  inversion Hlog as [|? ? He Hrest]; subst.
  destruct e; simpl in He; try contradiction;
    [destruct (upto_yield (S n) log) eqn:E
    |destruct (upto_yield (S n) log) eqn:E
    |destruct (upto_yield n log) eqn:E];
    simpl in H; inversion H; subst; constructor; eauto.
Qed.

Lemma returned_at_inner c b :
  Forall inner_effect (fst b) -> Forall inner_effect (fst (returned_at c b)).
Proof.
  intros Hb. unfold returned_at. destruct c as [n|]; [|exact Hb].
  destruct (upto_yield n (fst b)) eqn:E; [|exact Hb].
  simpl. eapply upto_yield_inner; eauto.
Qed.

(** The log of a generator: nothing when it is never started; otherwise
    the subscription, the effects of the block, and the disposal unless
    the block stays suspended. *)
Lemma generator_log b c :
  Forall inner_effect (fst b) ->
  snd (generator b c) <> Suspended ->
  released (fst (generator b c)).
Proof.
  intros Hb Hc. unfold generator in *.
  destruct c as [[|n]|]; [left; reflexivity| |];
    right; unfold catch_abort, finally_dispose in *;
    match goal with
    | |- context [returned_at ?c b] =>
        pose proof (returned_at_inner c b Hb) as Hin;
        destruct (returned_at c b) as [log k]
    end;
    simpl in *; exists log;
    (destruct k as [|e|]; simpl in *;
     [ split; [reflexivity | exact Hin]
     | destruct (str_eqb (name e) (js "AbortError")); simpl;
       split; [reflexivity | exact Hin | reflexivity | exact Hin]
     | congruence ]).
Qed.

Lemma abort_read_chunks chunks later :
  abort_read (length chunks) (map Chunk chunks ++ later)
  = map Chunk chunks ++ [ReadRejected AbortError].
Proof.
  induction chunks as [|v chunks IH]; simpl.
  - destruct later; reflexivity.
  - rewrite IH. reflexivity.
Qed.

Lemma count_read_app l1 l2 : count_read (l1 ++ l2) = count_read l1 + count_read l2.
Proof.
  induction l1 as [|e l1 IH]; simpl; [reflexivity|].
  destruct e; simpl; rewrite IH; reflexivity.
Qed.

Lemma count_read_Yield ds : count_read (map Yield ds) = 0.
Proof. induction ds; simpl; auto. Qed.

(** The log up to a [yield] that lies among, or after, the items of one
    buffer. *)
Lemma upto_yield_Yields ds log : forall j,
  upto_yield j (map Yield ds ++ log)
  = if j <=? length ds then Some (map Yield (firstn j ds))
    else option_map (app (map Yield ds)) (upto_yield (j - length ds) log).
Proof.
  induction ds as [|d ds IH]; intros j.
  - destruct j as [|j]; [destruct log; reflexivity|].
    cbn [map app length Nat.leb Nat.sub].
    destruct (upto_yield (S j) log); reflexivity.
  - destruct j as [|j]; [reflexivity|].
    cbn [map app length upto_yield Nat.leb Nat.sub firstn]. rewrite IH.
    destruct (j <=? length ds); [reflexivity|].
    destruct (upto_yield (j - length ds) log); reflexivity.
Qed.

Lemma upto_yield_zero log : upto_yield 0 log = Some [].
Proof. destruct log; reflexivity. Qed.

Lemma upto_yield_app_l log more : forall j p,
  upto_yield j log = Some p -> upto_yield j (log ++ more) = Some p.
Proof.
  induction log as [|e log IH]; intros j p H.
  - destruct j; [|discriminate H]. rewrite upto_yield_zero. exact H.
  - destruct j as [|j]; [exact H|].
    destruct e; cbn [app upto_yield] in *;
      match type of H with
      | option_map _ (upto_yield ?n log) = _ =>
          destruct (upto_yield n log) eqn:E; [|discriminate H];
          rewrite (IH _ _ E); exact H
      end.
Qed.

Lemma loop_lines_cons st value chunks :
  fst (loop_lines st (value :: chunks))
  = snd (read_chunk st value)
    ++ fst (loop_lines (fst (read_chunk st value)) chunks).
Proof.
  cbn [loop_lines]. destruct (read_chunk st value) as [st' lines].
  cbn [fst snd]. destruct (loop_lines st' chunks). reflexivity.
Qed.

(** Up to its [yield] number [j], the read loop has read some buffers
    and nothing else, and the item lies in the last of them. *)
Lemma read_loop_upto_yield on_line reads : forall st j p,
  1 <= j ->
  upto_yield j (fst (read_loop on_line st reads)) = Some p ->
  exists chunks later,
    reads = map Chunk chunks ++ later
    /\ count_read p = length chunks
    /\ j <= length (flat_map on_line (fst (loop_lines st chunks)))
    /\ length (flat_map on_line (fst (loop_lines st (removelast chunks)))) < j.
Proof.
  induction reads as [|r reads IH]; intros st j p Hj H.
  - destruct j; [lia|]. discriminate H.
  - destruct r as [value| |e]; try (destruct j; [lia|]; discriminate H).
    cbn [read_loop] in H.
    destruct (read_chunk st value) as [st' lines] eqn:Ec.
    destruct (read_loop on_line st' reads) as [log c] eqn:El.
    cbn [fst] in H. destruct j as [|j]; [lia|].
    cbn [upto_yield] in H. rewrite upto_yield_Yields in H.
    destruct (Nat.leb_spec (S j) (length (flat_map on_line lines))) as [Hle|Hgt].
    + inversion H; subst p. exists [value], reads.
      split; [reflexivity|].
      cbn [count_read]. rewrite count_read_Yield.
      cbn [removelast loop_lines]. rewrite Ec. cbn [fst].
      rewrite app_nil_r. cbn [flat_map length].
      split; [reflexivity|]. split; [exact Hle | lia].
    + destruct (upto_yield (S j - length (flat_map on_line lines)) log)
        as [p'|] eqn:Ep; [|discriminate H].
      inversion H; subst p.
      assert (Hlog : log = fst (read_loop on_line st' reads))
        by (rewrite El; reflexivity).
      rewrite Hlog in Ep.
      destruct (IH st' (S j - length (flat_map on_line lines)) p' ltac:(lia) Ep)
        as (chunks & later & Hr & Hc & Hu & Hl).
      exists (value :: chunks), later.
      split; [rewrite Hr; reflexivity|].
      split; [cbn [count_read]; rewrite count_read_app, count_read_Yield, Hc;
              reflexivity|].
      assert (Hne : chunks <> []).
      { intros ->. cbn [loop_lines fst flat_map length] in Hu. lia. }
      destruct chunks as [|c0 chunks]; [congruence|].
      change (removelast (value :: c0 :: chunks))
        with (value :: removelast (c0 :: chunks)).
      rewrite !(loop_lines_cons st value), Ec. cbn [fst snd].
      rewrite !flat_map_app, !length_app. split; lia.
Qed.

Lemma generator_all_log b :
  fst (generator b None)
  = Subscribe :: fst b ++ match snd b with
                          | Suspended => []
                          | _ => [Dispose]
                          end.
Proof.
  unfold generator, returned_at, finally_dispose, catch_abort.
  destruct b as [log c]. destruct c as [|e|]; simpl;
    rewrite ?app_nil_r; try reflexivity.
  destruct (str_eqb (name e) (js "AbortError")); reflexivity.
Qed.

(** Where the token's firing at a [yield] of the OpenAI generator leaves
    the transport: the buffers read up to that item, the next read
    rejected. *)
Lemma openai_cancel_at_yield a f j :
  1 <= j <= length (yielded (fst (OpenAI.streamOpenAIResponse a f None))) ->
  exists r chunks later,
    f = Resolved r
    /\ ok r = true
    /\ body r = Some (map Chunk chunks ++ later)
    /\ cancel_at_yield (fun f' => OpenAI.streamOpenAIResponse a f' None) j f
       = cancel_at (S (length chunks)) f
    /\ j <= length (flat_map OpenAI.on_line (emitted_lines chunks))
    /\ length (flat_map OpenAI.on_line (emitted_lines (removelast chunks))) < j.
Proof.
  intros [Hj Hle]. unfold cancel_at_yield, OpenAI.streamOpenAIResponse in *.
  rewrite generator_all_log in *.
  cbn [yielded] in Hle. rewrite yielded_app in Hle.
  assert (Hd : yielded match snd (OpenAI.inner_try a f) with
                       | Suspended => []
                       | _ => [Dispose]
                       end = [])
    by (destruct (snd (OpenAI.inner_try a f)); reflexivity).
  rewrite Hd, app_nil_r in Hle. clear Hd.
  unfold OpenAI.inner_try, read_response in *.
  destruct f as [r|e|]; cbn [fst snd yielded length] in Hle; try lia.
  destruct (ok r) eqn:Hok; cbn [negb fst snd yielded length] in Hle; try lia.
  destruct (body r) as [reads|] eqn:Hbody; cbn [fst snd yielded length] in Hle;
    try lia.
  cbn [negb fst snd].
  destruct (upto_yield_some _ j Hle) as (p & Hp & _).
  destruct (read_loop_upto_yield OpenAI.on_line reads loop_start j p Hj Hp)
    as (chunks & later & Hr & Hc & Hu & Hl).
  exists r, chunks, later. subst reads.
  split; [reflexivity|]. split; [exact Hok|]. split; [exact Hbody|].
  split; [|split; assumption].
  destruct j as [|j]; [lia|].
  cbn [upto_yield app option_map].
  rewrite (upto_yield_app_l _ _ _ _ Hp). cbn [option_map count_read].
  rewrite Hc. reflexivity.
Qed.

Lemma openai_inner_effects a f :
  Forall inner_effect (fst (OpenAI.inner_try a f)).
Proof.
  unfold OpenAI.inner_try. simpl. constructor; [exact I|].
  apply read_response_inner.
Qed.

(** C3, as the code has it.  When the cancellation token fires, the abort
    of the transport ends the OpenAI generator by returning: nothing is
    thrown, and no item comes from a read made after it fired.  While the
    [fetch] is pending nothing is yielded; while a read is pending the
    items of the buffers read before have been yielded; while the consumer
    holds the item number [j], the unfinished loop over the lines of the
    buffer that item came from goes on (it does not test the token), so the
    items of the buffers read up to there are all yielded, the first [j]
    of them being those of the run not cancelled.  And on every path on
    which the generator ends (returning, throwing, or left by its
    consumer), the subscription it took is disposed of, once and last. *)
Theorem cancellation_is_clean (a : stream_args) :
  (forall f c, c <> Some 0 ->
     OpenAI.streamOpenAIResponse a (cancel_at 0 f) c
     = ([Subscribe; Fetch (OpenAI.fetch_request a); Dispose], Completed))
  /\ (forall r chunks later,
        ok r = true ->
        body r = Some (map Chunk chunks ++ later) ->
        let run :=
          OpenAI.streamOpenAIResponse a
            (cancel_at (S (length chunks)) (Resolved r)) None in
        observed run = (flat_map OpenAI.on_line (emitted_lines chunks), Completed)
        /\ released (fst run))
  /\ (forall f c,
        snd (OpenAI.streamOpenAIResponse a f c) <> Suspended ->
        released (fst (OpenAI.streamOpenAIResponse a f c)))
  /\ (forall f j,
        1 <= j <= length (yielded (fst (OpenAI.streamOpenAIResponse a f None))) ->
        let run :=
          OpenAI.streamOpenAIResponse a
            (cancel_at_yield (fun f' => OpenAI.streamOpenAIResponse a f' None) j f)
            None in
        exists r chunks later,
          f = Resolved r
          /\ body r = Some (map Chunk chunks ++ later)
          /\ length (flat_map OpenAI.on_line (emitted_lines (removelast chunks))) < j
          /\ j <= length (flat_map OpenAI.on_line (emitted_lines chunks))
          /\ observed run
             = (flat_map OpenAI.on_line (emitted_lines chunks), Completed)
          /\ firstn j (yielded (fst run))
             = firstn j (yielded (fst (OpenAI.streamOpenAIResponse a f None)))
          /\ released (fst run)).
Proof.
  assert (Hall : forall f c,
        snd (OpenAI.streamOpenAIResponse a f c) <> Suspended ->
        released (fst (OpenAI.streamOpenAIResponse a f c))).
  { intros f c H. apply generator_log; [apply openai_inner_effects | exact H]. }
  assert (Hread : forall r chunks later,
        ok r = true ->
        body r = Some (map Chunk chunks ++ later) ->
        observed (OpenAI.streamOpenAIResponse a
                    (cancel_at (S (length chunks)) (Resolved r)) None)
        = (flat_map OpenAI.on_line (emitted_lines chunks), Completed)).
  { intros r chunks later Hok Hbody.
    unfold OpenAI.streamOpenAIResponse.
    rewrite observed_generator. unfold returned_at.
    unfold observed, OpenAI.inner_try, read_response, cancel_at.
    simpl. rewrite Hok, Hbody. simpl. rewrite abort_read_chunks.
    destruct (read_loop_chunks OpenAI.on_line chunks loop_start
                [ReadRejected AbortError]) as [-> ->].
    simpl. rewrite app_nil_r. reflexivity. }
  split; [|split; [|split; [exact Hall|]]].
  - intros f c Hc. destruct f; destruct c as [[|n]|]; try congruence; reflexivity.
  - intros r chunks later Hok Hbody run.
    pose proof (Hread r chunks later Hok Hbody) as Hobs. fold run in Hobs.
    split; [exact Hobs|].
    apply Hall. fold run. unfold observed in Hobs. inversion Hobs as [[Hy Hc]].
    rewrite Hc. discriminate.
  - intros f j Hj run.
    destruct (openai_cancel_at_yield a f j Hj)
      as (r & chunks & later & Hf & Hok & Hbody & Hcancel & Hu & Hl).
    exists r, chunks, later.
    assert (Hobs : observed run
                   = (flat_map OpenAI.on_line (emitted_lines chunks), Completed)).
    { unfold run. rewrite Hcancel, Hf. apply (Hread r chunks later Hok Hbody). }
    split; [exact Hf|]. split; [exact Hbody|]. split; [exact Hl|].
    split; [exact Hu|]. split; [exact Hobs|]. split.
    + unfold observed in Hobs. inversion Hobs as [[Hy Hc]]. rewrite Hy.
      assert (Hfull : yielded (fst (OpenAI.streamOpenAIResponse a f None))
                = flat_map OpenAI.on_line (emitted_lines chunks)
                  ++ yielded (fst (read_loop OpenAI.on_line
                                     (snd (loop_lines loop_start chunks)) later))).
      { subst f. unfold OpenAI.streamOpenAIResponse.
        rewrite generator_all_log. cbn [yielded]. rewrite yielded_app.
        unfold OpenAI.inner_try, read_response. rewrite Hok, Hbody.
        cbn [negb fst snd yielded].
        destruct (read_loop_chunks OpenAI.on_line chunks loop_start later)
          as [-> Hs].
        match goal with
        | |- context [yielded match ?c with _ => _ end] =>
            assert (Hd : yielded match c with
                                 | Suspended => []
                                 | _ => [Dispose]
                                 end = []) by (destruct c; reflexivity);
            rewrite Hd
        end.
        rewrite app_nil_r. reflexivity. }
      rewrite Hfull, firstn_app.
      replace (j - length (flat_map OpenAI.on_line (emitted_lines chunks)))
        with 0 by lia.
      rewrite firstn_O, app_nil_r. reflexivity.
    + apply Hall. fold run. unfold observed in Hobs.
      inversion Hobs as [[Hy Hc]]. rewrite Hc. discriminate.
Qed.

Lemma cancellation_is_clean_witness :
  let a := {| baseURL := js "https://api.openai.com/v1"; apiKey := js "k";
              model := js "gpt-4o"; messages := []; systemMessage := None |} in
  let r := {| ok := true; statusText := js "OK";
              body := Some (map Chunk
                              [qbytes "data: {'choices':[{'delta':{'content':'hi'}}]}
"]
                            ++ [Chunk (qbytes "data: {'choices':[{'delta':{'content':'!'}}]}
"); Done]) |} in
  observed (OpenAI.streamOpenAIResponse a (cancel_at 2 (Resolved r)) None)
  = ([TextDelta (JString (js "hi"))], Completed).
Proof.
  intros a r.
  destruct (cancellation_is_clean a) as (_ & H & _).
  destruct (H r [qbytes "data: {'choices':[{'delta':{'content':'hi'}}]}
"] [Chunk (qbytes "data: {'choices':[{'delta':{'content':'!'}}]}
"); Done]) as [Hobs _].
  - reflexivity.
  - reflexivity.
  - exact Hobs.
Defined.

(** C3 as stated fails: the token fires while the consumer holds the
    first item of a buffer that holds three frames, and the two items
    after it are yielded all the same before the generator returns. *)
Lemma cancellation_counterexample :
  let a := {| baseURL := js "https://api.openai.com/v1"; apiKey := js "k";
              model := js "gpt-4o"; messages := []; systemMessage := None |} in
  let f := delivers [qbytes "data: {'choices':[{'delta':{'content':'a'}}]}
data: {'choices':[{'delta':{'content':'b'}}]}
data: {'choices':[{'delta':{'content':'c'}}]}
"] in
  let fired :=
    cancel_at_yield (fun f' => OpenAI.streamOpenAIResponse a f' None) 1 f in
  fired = cancel_at 2 f
  /\ observed (OpenAI.streamOpenAIResponse a fired None)
     = ([TextDelta (JString (js "a")); TextDelta (JString (js "b"));
         TextDelta (JString (js "c"))], Completed)
  /\ yielded (fst (OpenAI.streamOpenAIResponse a fired None))
     <> firstn 1 (yielded (fst (OpenAI.streamOpenAIResponse a f None))).
Proof.
  intros a f fired. split; [|split].
  - vm_compute. reflexivity.
  - vm_compute. reflexivity.
  - vm_compute. discriminate.
Qed.

(** C7. A response whose status is not a success makes the OpenAI
    generator throw an error whose message carries the status text, and a
    response without a readable body makes it throw as well; in both
    cases right after the [fetch]: nothing is read, no item is yielded,
    and the subscription is disposed of. *)
Theorem transport_failure_is_immediate
  (a : stream_args) (r : response) (c : consumer) :
  c <> Some 0 ->
  (ok r = false ->
     OpenAI.streamOpenAIResponse a (Resolved r) c
     = ([Subscribe; Fetch (OpenAI.fetch_request a); Dispose],
        Threw (Error (js "OpenAI API error: " ++ statusText r))))
  /\ (ok r = true -> body r = None ->
     OpenAI.streamOpenAIResponse a (Resolved r) c
     = ([Subscribe; Fetch (OpenAI.fetch_request a); Dispose],
        Threw (Error (js "No response body")))).
Proof.
  intros Hc. unfold OpenAI.streamOpenAIResponse, OpenAI.inner_try, read_response.
  split.
  - intros Hok. rewrite Hok. simpl.
    destruct c as [[|n]|]; [congruence| |]; reflexivity.
  - intros Hok Hbody. rewrite Hok, Hbody. simpl.
    destruct c as [[|n]|]; [congruence| |]; reflexivity.
Qed.

Lemma transport_failure_is_immediate_witness :
  let a := {| baseURL := js "https://api.openai.com/v1"; apiKey := js "k";
              model := js "gpt-4o"; messages := []; systemMessage := None |} in
  let r := {| ok := false; statusText := js "Too Many Requests";
              body := Some [Chunk (bytes "data: [DONE]"); Done] |} in
  yielded (fst (OpenAI.streamOpenAIResponse a (Resolved r) None)) = []
  /\ count_read (fst (OpenAI.streamOpenAIResponse a (Resolved r) None)) = 0
  /\ snd (OpenAI.streamOpenAIResponse a (Resolved r) None)
     = Threw (Error (js "OpenAI API error: Too Many Requests")).
Proof.
  intros a r.
  destruct (transport_failure_is_immediate a r None) as [H _];
    [discriminate|].
  rewrite (H eq_refl). repeat split.
Defined.

End StreamingClient.

(* ================================================================= *)
(** ** [sendChatRequest]: credentials and message conversion *)

Section SendChatRequest.

Lemma openai_fetch_logged a f :
  In (Fetch (OpenAI.fetch_request a))
     (fst (OpenAI.streamOpenAIResponse a f None)).
Proof.
  unfold OpenAI.streamOpenAIResponse, generator, returned_at, finally_dispose,
    catch_abort, OpenAI.inner_try.
  destruct (read_response OpenAI.on_line (js "OpenAI") f) as [log c].
  destruct c as [|e|]; simpl; auto.
  destruct (str_eqb (name e) (js "AbortError")); simpl; auto.
Qed.

(** C2, on the OpenAI provider.  With no key in the environment and none
    in the settings, [sendChatRequest] does not throw: it returns the
    stream, and the key that stream sends is the literal written in the
    source.  (The Anthropic provider, on the same host, throws.) *)
Theorem openai_falls_back_to_hardcoded_key
  (h : host) (modelId : jsstring) (msgs : list IChatMessage) :
  falsy (match process_env h with
         | Some e => e (js "OPENAI_API_KEY")
         | None => None
         end) = true ->
  falsy (getValue h (js "languageModels.openai.apiKey")) = true ->
  (exists a,
     OpenAI.sendChatRequest h modelId msgs = Ok a
     /\ apiKey a = OpenAI.hardcodedKey
     /\ In (js "Authorization", js "Bearer " ++ OpenAI.hardcodedKey)
           (headers (OpenAI.fetch_request a))
     /\ forall f,
          In (Fetch (OpenAI.fetch_request a))
             (fst (OpenAI.streamOpenAIResponse a f None)))
  /\ (falsy (getValue h (js "languageModels.anthropic.apiKey")) = true ->
      exists e, Anthropic.sendChatRequest h modelId msgs = Throw e).
Proof.
  intros Henv Hcfg. split.
  - unfold OpenAI.sendChatRequest.
    destruct (process_env h) as [e|];
      [destruct (e (js "OPENAI_API_KEY")) as [[|? ?]|] |];
      try discriminate Henv;
      (destruct (getValue h (js "languageModels.openai.apiKey")) as [[|? ?]|];
       try discriminate Hcfg);
      (eexists; split; [reflexivity|]; split; [reflexivity|];
       split; [simpl; auto | intros f; apply openai_fetch_logged]).
  - intros Ha. unfold Anthropic.sendChatRequest.
    destruct (getValue h (js "languageModels.anthropic.apiKey")) as [[|? ?]|];
      try discriminate Ha; eexists; reflexivity.
Qed.

Lemma openai_falls_back_to_hardcoded_key_witness :
  let h := {| getValue := fun _ => None; process_env := Some (fun _ => None) |} in
  exists a,
    OpenAI.sendChatRequest h (js "openai-gpt-4o")
      [{| role := User; content := [TextPart (js "hello")] |}] = Ok a
    /\ apiKey a = OpenAI.hardcodedKey.
Proof.
  intros h.
  destruct (openai_falls_back_to_hardcoded_key h (js "openai-gpt-4o")
              [{| role := User; content := [TextPart (js "hello")] |}])
    as [(a & Ha & Hk & _) _]; [reflexivity | reflexivity |].
  exists a. split; assumption.
Defined.

Lemma filter_no_system msgs :
  Forall (fun m => role m <> System)
         (filter (fun msg => negb (role_eqb (role msg) System)) msgs).
Proof.
  apply Forall_forall. intros m Hm. apply filter_In in Hm.
  destruct Hm as [_ Hm]. destruct (role m); simpl in Hm; congruence.
Qed.

(** C8. The request the Anthropic provider sends carries, as its message
    array, the messages whose role is not System, in their order, each
    with the role [user] (for User) or [assistant] and its text; and as
    its [system] member the text of the first System message when there is
    one, no [system] member otherwise.  No System message is in the
    array. *)
Theorem anthropic_system_message_separated
  (h : host) (modelId : jsstring) (msgs : list IChatMessage) (a : stream_args) :
  Anthropic.sendChatRequest h modelId msgs = Ok a ->
  let req := Anthropic.fetch_request a in
  let others := filter (fun msg => negb (role_eqb (role msg) System)) msgs in
  Forall (fun m => role m <> System) others
  /\ (forall m, In m msgs -> role m <> System -> In m others)
  /\ body_messages req
     = map (fun msg =>
              {| wire_role := match role msg with
                              | User => js "user"
                              | _ => js "assistant"
                              end;
                 wire_content := content_text msg |}) others
  /\ Forall (fun w => wire_role w = js "user" \/ wire_role w = js "assistant")
            (body_messages req)
  /\ body_system req
     = option_map content_text
         (find (fun msg => role_eqb (role msg) System) msgs)
  /\ (body_system req = None <-> Forall (fun m => role m <> System) msgs).
Proof.
  intros Hsend req others.
  unfold Anthropic.sendChatRequest in Hsend.
  destruct (getValue h (js "languageModels.anthropic.apiKey")) as [[|c k]|];
    try discriminate Hsend.
  inversion Hsend; subst a; clear Hsend.
  unfold req, Anthropic.fetch_request; simpl.
  split; [apply filter_no_system|].
  split.
  { intros m Hin Hr. apply filter_In. split; [exact Hin|].
    destruct (role m); simpl; congruence. }
  split.
  { apply map_ext. intros m. destruct (role m); reflexivity. }
  split.
  { apply Forall_forall. intros w Hw. apply in_map_iff in Hw.
    destruct Hw as (m & <- & _). simpl.
    destruct (role_eqb (role m) User); auto. }
  split; [reflexivity|].
  split.
  - intros Hnone. apply Forall_forall. intros m Hin Hr.
    destruct (find (fun msg => role_eqb (role msg) System) msgs) eqn:E;
      [discriminate Hnone|].
    apply (find_none _ _ E) in Hin. rewrite Hr in Hin. discriminate Hin.
  - intros Hall.
    destruct (find (fun msg => role_eqb (role msg) System) msgs) eqn:E;
      [|reflexivity].
    apply find_some in E. destruct E as [Hin Hr].
    rewrite Forall_forall in Hall. specialize (Hall _ Hin).
    destruct (role i); simpl in Hr; congruence.
Qed.

Lemma anthropic_system_message_separated_witness :
  let h := {| getValue := fun k =>
                if str_eqb k (js "languageModels.anthropic.apiKey")
                then Some (js "key") else None;
              process_env := None |} in
  let msgs := [ {| role := System; content := [TextPart (js "be brief")] |};
                {| role := User; content := [TextPart (js "hi"); OtherPart] |};
                {| role := System; content := [TextPart (js "later")] |};
                {| role := Assistant; content := [TextPart (js "hello")] |} ] in
  exists a,
    Anthropic.sendChatRequest h (js "anthropic-claude-3.5-sonnet") msgs = Ok a
    /\ body_messages (Anthropic.fetch_request a)
       = [ {| wire_role := js "user"; wire_content := js "hi" |};
           {| wire_role := js "assistant"; wire_content := js "hello" |} ]
    /\ body_system (Anthropic.fetch_request a) = Some (js "be brief").
Proof.
  intros h msgs. eexists. split; [reflexivity|].
  destruct (anthropic_system_message_separated h
              (js "anthropic-claude-3.5-sonnet") msgs _ eq_refl)
    as (_ & _ & Hm & _ & Hs & _).
  split; [rewrite Hm; reflexivity | rewrite Hs; reflexivity].
Defined.

End SendChatRequest.

(* ================================================================= *)
(** ** Default-model selection (spec 4.5) *)

Section DefaultModel.

Lemma str_eqb_refl a : str_eqb a a = true.
Proof. apply str_eqb_eq. reflexivity. Qed.

(** With identifiers all different, an identifier resolves to its own
    descriptor. *)
Lemma find_identifier es : forall e,
  NoDup (map Metadata.identifier es) -> In e es ->
  find (fun x => str_eqb (Metadata.identifier x) (Metadata.identifier e)) es
  = Some e.
Proof.
  induction es as [|x es IH]; intros e Hnd Hin; [destruct Hin|].
  inversion Hnd as [|? ? Hx Hnd']; subst. simpl.
  destruct Hin as [->|Hin]; [rewrite str_eqb_refl; reflexivity|].
  destruct (str_eqb (Metadata.identifier x) (Metadata.identifier e)) eqn:E.
  - apply str_eqb_eq in E. exfalso. apply Hx. rewrite E.
    apply in_map. exact Hin.
  - apply IH; assumption.
Qed.

Lemma lookup_descriptor dir e :
  NoDup (Directory.getLanguageModelIds dir) ->
  In e (Directory.descriptors dir) ->
  Directory.lookupLanguageModel dir (Metadata.identifier e)
  = Some (Metadata.metadata e).
Proof.
  intros Hnd Hin. unfold Directory.lookupLanguageModel.
  rewrite (find_identifier _ e Hnd Hin). reflexivity.
Qed.

(** The loop over the identifiers finds the first descriptor whose
    [isDefault] is set. *)
Lemma find_default_descriptors dir es :
  NoDup (Directory.getLanguageModelIds dir) ->
  incl es (Directory.descriptors dir) ->
  Agent.find_default (Directory.lookupLanguageModel dir)
    (map Metadata.identifier es)
  = option_map (fun e => (Metadata.identifier e, Metadata.metadata e))
      (find (fun e => Metadata.isDefault (Metadata.metadata e)) es).
Proof.
  intros Hnd. induction es as [|e es IH]; intros Hincl; [reflexivity|].
  simpl. rewrite (lookup_descriptor dir e Hnd (Hincl e (or_introl eq_refl))).
  destruct (Metadata.isDefault (Metadata.metadata e)); [reflexivity|].
  apply IH. intros x Hx. apply Hincl. right. exact Hx.
Qed.

Lemma first_nonempty_hd dir :
  Directory.first_nonempty dir = hd_error (Directory.descriptors dir).
Proof.
  unfold Directory.first_nonempty, Directory.descriptors.
  induction dir as [|[v [|e es]] dir IH]; simpl; auto.
Qed.

Lemma all_empty_descriptors dir :
  Forall (fun vs => snd vs = []) dir -> Directory.descriptors dir = [].
Proof.
  unfold Directory.descriptors.
  induction 1 as [|[v es] dir Hes _ IH]; simpl in *; [reflexivity|].
  subst es. exact IH.
Qed.

(** The two ways [select] ends on a model. *)
Lemma select_default models lookup modelId model :
  Agent.find_default lookup models = Some (modelId, model) ->
  modelId <> [] ->
  Agent.select models lookup = Agent.Selected modelId model.
Proof.
  intros Hf Hid. unfold Agent.select.
  destruct models as [|first rest]; [discriminate Hf|].
  rewrite Hf. simpl. destruct modelId; [congruence | reflexivity].
Qed.

Lemma select_fallback first rest lookup model :
  Agent.find_default lookup (first :: rest) = None ->
  first <> [] ->
  lookup first = Some model ->
  Agent.select (first :: rest) lookup = Agent.Selected first model.
Proof.
  intros Hf Hid Hl. unfold Agent.select. rewrite Hf. simpl. rewrite Hl.
  destruct first; [congruence | reflexivity].
Qed.

(** C9, as the code has it.  When the identifiers of the directory are
    non-empty strings, no two the same, the agent selects: the first
    descriptor whose [isDefault] is set, the snapshots scanned in
    registration order; when there is none, the first descriptor of the
    first snapshot that is not empty; and when every snapshot is empty it
    selects nothing and answers with the error
    [No language models available]. *)
Theorem default_model_selection (dir : Directory.t) :
  NoDup (Directory.getLanguageModelIds dir) ->
  Forall (fun id => id <> []) (Directory.getLanguageModelIds dir) ->
  (forall e,
     Directory.first_default dir = Some e ->
     Agent.invoke_select dir
     = Agent.Selected (Metadata.identifier e) (Metadata.metadata e))
  /\ (forall e,
        Directory.first_default dir = None ->
        Directory.first_nonempty dir = Some e ->
        Agent.invoke_select dir
        = Agent.Selected (Metadata.identifier e) (Metadata.metadata e))
  /\ (Forall (fun vs => snd vs = []) dir ->
      Agent.invoke_select dir
      = Agent.NoModel (js "No language models available"))
  /\ match Directory.selectDefault dir with
     | Some e =>
         Agent.invoke_select dir
         = Agent.Selected (Metadata.identifier e) (Metadata.metadata e)
     | None =>
         Agent.invoke_select dir
         = Agent.NoModel (js "No language models available")
     end.
Proof.
  intros Hnd Hne.
  assert (Hfound := find_default_descriptors dir (Directory.descriptors dir)
                      Hnd (incl_refl _)).
  fold (Directory.getLanguageModelIds dir) in Hfound.
  assert (Hdefault : forall e,
     Directory.first_default dir = Some e ->
     Agent.invoke_select dir
     = Agent.Selected (Metadata.identifier e) (Metadata.metadata e)).
  { intros e He. unfold Directory.first_default in He.
    apply select_default; [rewrite Hfound, He; reflexivity|].
    apply find_some in He. destruct He as [Hin _].
    rewrite Forall_forall in Hne. apply Hne.
    unfold Directory.getLanguageModelIds. apply in_map. exact Hin. }
  assert (Hfirst : forall e,
     Directory.first_default dir = None ->
     Directory.first_nonempty dir = Some e ->
     Agent.invoke_select dir
     = Agent.Selected (Metadata.identifier e) (Metadata.metadata e)).
  { intros e Hn He. rewrite first_nonempty_hd in He.
    unfold Directory.first_default in Hn. rewrite Hn in Hfound.
    unfold Agent.invoke_select.
    assert (Hin : In e (Directory.descriptors dir))
      by (destruct (Directory.descriptors dir); inversion He; subst; left;
          reflexivity).
    pose proof (lookup_descriptor dir e Hnd Hin) as Hl.
    unfold Directory.getLanguageModelIds in *.
    destruct (Directory.descriptors dir) as [|e0 es]; inversion He; subst.
    apply select_fallback; [exact Hfound| |exact Hl].
    inversion Hne; assumption. }
  assert (Hempty : Directory.descriptors dir = [] ->
      Agent.invoke_select dir
      = Agent.NoModel (js "No language models available")).
  { intros E. unfold Agent.invoke_select, Directory.getLanguageModelIds.
    rewrite E. reflexivity. }
  split; [exact Hdefault|]. split; [exact Hfirst|]. split.
  - intros Hall. apply Hempty, all_empty_descriptors, Hall.
  - unfold Directory.selectDefault.
    destruct (Directory.first_default dir) as [e|] eqn:E; [auto|].
    destruct (Directory.first_nonempty dir) as [e|] eqn:E'; [auto|].
    apply Hempty. rewrite first_nonempty_hd in E'.
    destruct (Directory.descriptors dir); [reflexivity | discriminate E'].
Qed.

Lemma default_model_selection_witness :
  let dir := [("A", [descriptor "A" "a1" false]);
              ("B", [descriptor "B" "b1" true])]%string in
  let dir := map (fun vs => (js (fst vs), snd vs)) dir in
  Agent.invoke_select dir
  = Agent.Selected (js "b1") (Metadata.metadata (descriptor "B" "b1" true)).
Proof.
  intros dir0 dir.
  destruct (default_model_selection dir) as (H & _).
  - repeat constructor; simpl; intuition discriminate.
  - repeat constructor; discriminate.
  - apply (H (descriptor "B" "b1" true)). reflexivity.
Defined.

(** C9 as stated fails on a descriptor whose identifier is the empty
    string: [!selectedModelId] holds of it, and the agent falls back to
    the first identifier although a default was found. *)
Lemma default_selection_counterexample :
  let a1 := descriptor "A" "a1" false in
  let b := descriptor "B" "" true in
  let dir := [(js "A", [a1]); (js "B", [b])] in
  NoDup (Directory.getLanguageModelIds dir)
  /\ Directory.selectDefault dir = Some b
  /\ Agent.invoke_select dir
     = Agent.Selected (js "a1") (Metadata.metadata a1)
  /\ Agent.invoke_select dir
     <> Agent.Selected (Metadata.identifier b) (Metadata.metadata b).
Proof.
  intros a1 b dir. split; [|split; [|split]].
  - repeat constructor; simpl; intuition discriminate.
  - reflexivity.
  - reflexivity.
  - vm_compute. discriminate.
Qed.

End DefaultModel.

(* ================================================================= *)
(** ** The Ollama model identifier *)

Section OllamaIdentifier.

Lemma replaceAll_char c r s :
  replaceAll [c] r s = flat_map (fun x => if (c =? x)%N then r else [x]) s.
Proof.
  unfold replaceAll. induction s as [|x s IH]; [reflexivity|].
  simpl. rewrite andb_true_r. destruct (c =? x)%N; rewrite IH; reflexivity.
Qed.

Lemma encodedName_tokens name :
  Ollama.encodedName name = flat_map colon_token (flat_map dot_token name).
Proof.
  unfold Ollama.encodedName.
  change (js ":") with [58%N]. change (js ".") with [46%N].
  rewrite !replaceAll_char. reflexivity.
Qed.

Lemma includes_cons p x s :
  includes p (x :: s) = false ->
  startsWith p (x :: s) = false /\ includes p s = false.
Proof. simpl. intros H. apply orb_false_iff in H. exact H. Qed.

Lemma includes_startsWith p s :
  includes p s = false -> startsWith p s = false.
Proof.
  destruct s; simpl; intros H; apply orb_false_iff in H; apply H.
Qed.

Lemma startsWith_app_l p q s :
  startsWith p s = false -> startsWith (p ++ q) s = false.
Proof.
  revert s. induction p as [|x p IH]; intros [|y s] H; simpl in *;
    try discriminate; try reflexivity.
  destruct (x =? y)%N; simpl in *; auto.
Qed.

(** A prefix without underscore, full stop or colon is found at the head
    of an encoded text only where it is at the head of the text. *)
Lemma startsWith_dot_tokens p : forall s,
  Forall (fun c => c <> 95 /\ c <> 46 /\ c <> 58)%N p ->
  startsWith p (flat_map colon_token (flat_map dot_token s)) = startsWith p s.
Proof.
  induction p as [|c p IH]; intros [|y s] Hp; try reflexivity.
  inversion Hp as [|? ? (H95 & H46 & H58) Hp']; subst.
  cbn [flat_map]. rewrite flat_map_app. unfold dot_token at 1.
  destruct (N.eqb_spec 46 y) as [<-|Hy].
  - simpl. apply N.eqb_neq in H95, H46. rewrite H95, H46. reflexivity.
  - cbn [flat_map]. unfold colon_token at 1.
    destruct (N.eqb_spec 58 y) as [<-|Hy'].
    + simpl. apply N.eqb_neq in H95, H58. rewrite H95, H58. reflexivity.
    + simpl. rewrite IH by assumption. reflexivity.
Qed.

Lemma startsWith_colon_tokens p : forall s,
  Forall (fun c => c <> 95 /\ c <> 58)%N p ->
  startsWith p (flat_map colon_token s) = startsWith p s.
Proof.
  induction p as [|c p IH]; intros [|y s] Hp; try reflexivity.
  inversion Hp as [|? ? (H95 & H58) Hp']; subst.
  cbn [flat_map]. unfold colon_token at 1.
  destruct (N.eqb_spec 58 y) as [<-|Hy'].
  - simpl. apply N.eqb_neq in H95, H58. rewrite H95, H58. reflexivity.
  - simpl. rewrite IH by assumption. reflexivity.
Qed.

Lemma dot_plain : Forall (fun c => c <> 95 /\ c <> 46 /\ c <> 58)%N (js "dot").
Proof. repeat constructor; discriminate. Qed.

Lemma colon_plain : Forall (fun c => c <> 95 /\ c <> 58)%N (js "colon").
Proof. repeat constructor; discriminate. Qed.

(** The first replacement of the decoding undoes the first of the
    encoding, on a name in which [dot] does not occur. *)
Lemma decode_dots name :
  includes (js "dot") name = false ->
  replaceAll (js "_dot_") (js ".") (flat_map colon_token (flat_map dot_token name))
  = flat_map colon_token name.
Proof.
  unfold replaceAll. induction name as [|x name IH]; intros H; [reflexivity|].
  apply includes_cons in H. destruct H as [_ H].
  specialize (IH H).
  assert (Hno : startsWith (js "dot_")
                  (flat_map colon_token (flat_map dot_token name)) = false).
  { apply (startsWith_app_l (js "dot") (js "_")).
    rewrite (startsWith_dot_tokens _ _ dot_plain).
    apply includes_startsWith. exact H. }
  cbn [flat_map]. rewrite flat_map_app. unfold dot_token at 1.
  destruct (N.eqb_spec 46 x) as [<-|H46].
  - simpl. rewrite IH. reflexivity.
  - cbn [flat_map]. rewrite app_nil_r. unfold colon_token at 1 3.
    destruct (N.eqb_spec 58 x) as [<-|H58].
    + change (js "_colon_") with [95; 99; 111; 108; 111; 110; 95]%N.
      change (js "_dot_") with (95 :: js "dot_")%N in *.
      cbn -[js]. rewrite Hno. cbn -[js]. rewrite IH. reflexivity.
    + change (js "_dot_") with (95 :: js "dot_")%N in *.
      cbn [app replaceAll_from startsWith].
      destruct (N.eqb_spec 95 x) as [<-|H95]; cbn [andb];
        [rewrite Hno|]; rewrite IH; reflexivity.
Qed.

(** The second replacement of the decoding undoes the second of the
    encoding, on a name in which [colon] does not occur. *)
Lemma decode_colons name :
  includes (js "colon") name = false ->
  replaceAll (js "_colon_") (js ":") (flat_map colon_token name) = name.
Proof.
  unfold replaceAll. induction name as [|x name IH]; intros H; [reflexivity|].
  apply includes_cons in H. destruct H as [_ H].
  specialize (IH H).
  assert (Hno : startsWith (js "colon_") (flat_map colon_token name) = false).
  { apply (startsWith_app_l (js "colon") (js "_")).
    rewrite (startsWith_colon_tokens _ _ colon_plain).
    apply includes_startsWith. exact H. }
  cbn [flat_map]. unfold colon_token at 1.
  destruct (N.eqb_spec 58 x) as [<-|H58].
  - simpl. rewrite IH. reflexivity.
  - change (js "_colon_") with (95 :: js "colon_")%N in *.
    cbn [app replaceAll_from startsWith].
    destruct (N.eqb_spec 95 x) as [<-|H95]; cbn [andb];
      [rewrite Hno|]; rewrite IH; reflexivity.
Qed.

(** C10, as the code has it.  For a model name in which neither [dot] nor
    [colon] occurs, decoding in [sendChatRequest] the identifier that
    [provideLanguageModelChatInfo] makes of it gives the name back. *)
Theorem ollama_identifier_roundtrip (modelName : jsstring) :
  includes (js "dot") modelName = false ->
  includes (js "colon") modelName = false ->
  Ollama.decodedModel (Ollama.modelId modelName) = modelName.
Proof.
  intros Hdot Hcolon. unfold Ollama.decodedModel, Ollama.modelId.
  change (replace (js "ollama-") [] (js "ollama-" ++ Ollama.encodedName modelName))
    with (Ollama.encodedName modelName).
  rewrite encodedName_tokens, decode_dots, decode_colons; auto.
Qed.

Lemma ollama_identifier_roundtrip_witness :
  Ollama.modelId (js "llama3.1:8b") = js "ollama-llama3_dot_1_colon_8b"
  /\ Ollama.decodedModel (Ollama.modelId (js "llama3.1:8b")) = js "llama3.1:8b".
Proof.
  split; [reflexivity|].
  apply (ollama_identifier_roundtrip (js "llama3.1:8b")); reflexivity.
Defined.

(** C10 as stated fails: the name [:dot.] holds neither [_dot_] nor
    [_colon_], and the identifier made of it decodes to [_colon.dot_]. *)
Lemma ollama_identifier_counterexample :
  let modelName := js ":dot." in
  includes (js "_dot_") modelName = false
  /\ includes (js "_colon_") modelName = false
  /\ Ollama.modelId modelName = js "ollama-_colon_dot_dot_"
  /\ Ollama.decodedModel (Ollama.modelId modelName) = js "_colon.dot_"
  /\ Ollama.decodedModel (Ollama.modelId modelName) <> modelName.
Proof.
  intros modelName. repeat split; try reflexivity.
  vm_compute. discriminate.
Qed.

End OllamaIdentifier.

(* ================================================================= *)
(** ** The three response generators alike *)

Section AllProviders.

Lemma stream_of_eq v a f c :
  stream_of v a f c
  = generator (inner_block (on_line_of v) (api_of v) (request_of v a) f) c.
Proof. destruct v; reflexivity. Qed.

Lemma inner_block_delivers on_line api req chunks :
  observed (inner_block on_line api req (delivers chunks))
  = (flat_map on_line (emitted_lines chunks), Completed).
Proof.
  unfold observed, inner_block, delivers, read_response. simpl.
  destruct (read_loop_delivers on_line chunks) as [-> ->]. reflexivity.
Qed.

Lemma inner_block_effects on_line api req f :
  Forall inner_effect (fst (inner_block on_line api req f)).
Proof.
  unfold inner_block. simpl. constructor; [exact I|].
  apply read_response_inner.
Qed.

Lemma stream_released v a f c :
  snd (stream_of v a f c) <> Suspended -> released (fst (stream_of v a f c)).
Proof.
  rewrite stream_of_eq. apply generator_log, inner_block_effects.
Qed.

Lemma observed_stream_all v a f :
  observed (stream_of v a f None)
  = (fst (observed (inner_block (on_line_of v) (api_of v) (request_of v a) f)),
     caught (snd (observed
                    (inner_block (on_line_of v) (api_of v) (request_of v a) f)))).
Proof. rewrite stream_of_eq, observed_generator. reflexivity. Qed.

Lemma inner_block_rejected on_line api req r chunks e later :
  ok r = true ->
  body r = Some (map Chunk chunks ++ ReadRejected e :: later) ->
  observed (inner_block on_line api req (Resolved r))
  = (flat_map on_line (emitted_lines chunks), Threw e).
Proof.
  intros Hok Hbody. unfold observed, inner_block, read_response.
  rewrite Hok, Hbody. simpl.
  destruct (read_loop_chunks on_line chunks loop_start (ReadRejected e :: later))
    as [-> ->].
  simpl. rewrite app_nil_r. reflexivity.
Qed.

Lemma read_loop_after_done on_line chunks later : forall st,
  read_loop on_line st (map Chunk chunks ++ Done :: later)
  = read_loop on_line st (map Chunk chunks ++ [Done]).
Proof.
  induction chunks as [|v chunks IH]; intros st; simpl; [reflexivity|].
  destruct (read_chunk st v) as [st' lines]. rewrite IH. reflexivity.
Qed.

Lemma count_fetch_app l1 l2 : count_fetch (l1 ++ l2) = count_fetch l1 + count_fetch l2.
Proof.
  induction l1 as [|e l1 IH]; simpl; [reflexivity|].
  destruct e; simpl; rewrite IH; reflexivity.
Qed.

Lemma count_fetch_Yield ds : count_fetch (map Yield ds) = 0.
Proof. induction ds; simpl; auto. Qed.

Lemma read_loop_counts on_line chunks : forall st,
  count_read (fst (read_loop on_line st (map Chunk chunks ++ [Done])))
  = S (length chunks)
  /\ count_fetch (fst (read_loop on_line st (map Chunk chunks ++ [Done]))) = 0
  /\ snd (read_loop on_line st (map Chunk chunks ++ [Done])) = Completed.
Proof.
  induction chunks as [|v chunks IH]; intros st; simpl; [auto|].
  destruct (read_chunk st v) as [st' lines].
  specialize (IH st').
  destruct (read_loop on_line st' (map Chunk chunks ++ [Done])) as [log c].
  simpl in *. destruct IH as (I1 & I2 & I3).
  rewrite count_read_app, count_read_Yield, count_fetch_app, count_fetch_Yield.
  simpl. auto.
Qed.

(** X1. For each of the three providers, the items of a response that
    delivers its bytes in any buffers and then ends are the items of the
    complete lines of the whole decoded text, line by line in order; the
    generator completes; and the same is observed on the bytes in one
    buffer, whatever the consumer. *)
Theorem streams_follow_the_lines (v : provider) (a : stream_args)
  (chunks : list (list byte)) :
  observed (stream_of v a (delivers chunks) None)
  = (flat_map (on_line_of v) (complete_lines (decoded_text (concat chunks))),
     Completed)
  /\ forall c,
       observed (stream_of v a (delivers chunks) c)
       = observed (stream_of v a (delivers [concat chunks]) c).
Proof.
  split.
  - rewrite observed_stream_all, inner_block_delivers.
    destruct (emitted_lines_eq chunks) as [-> _]. reflexivity.
  - intros c. rewrite !stream_of_eq. apply generator_observed.
    rewrite !inner_block_delivers, emitted_lines_concat. reflexivity.
Qed.

(** X2. What the loop has gone through and what it holds lose nothing of
    the text: over any buffers, the lines gone through, each closed by a
    line feed, followed by the retained buffer, are the decoded text;
    and no line feed is inside a line or inside the buffer. *)
Theorem lines_and_buffer_rebuild_text (chunks : list (list byte)) :
  terminate (emitted_lines chunks) ++ retained chunks
  = decoded_text (concat chunks)
  /\ Forall (fun l => ~ In LF l) (emitted_lines chunks)
  /\ ~ In LF (retained chunks).
Proof.
  destruct (emitted_lines_eq chunks) as [-> ->]. apply lines_decompose.
Qed.

(** X3. For each provider, a response whose status is not a success makes
    the generator throw [<Vendor> API error: <status text>], and one
    without a readable body [No response body]; nothing is read or
    yielded and the subscription is disposed of. *)
Theorem every_stream_fails_on_bad_response
  (v : provider) (a : stream_args) (r : response) (c : consumer) :
  c <> Some 0 ->
  (ok r = false ->
     stream_of v a (Resolved r) c
     = ([Subscribe; Fetch (request_of v a); Dispose],
        Threw (Error (api_of v ++ js " API error: " ++ statusText r))))
  /\ (ok r = true -> body r = None ->
     stream_of v a (Resolved r) c
     = ([Subscribe; Fetch (request_of v a); Dispose],
        Threw (Error (js "No response body")))).
Proof.
  intros Hc. rewrite stream_of_eq. unfold inner_block, read_response. split.
  - intros Hok. rewrite Hok.
    destruct c as [[|n]|]; [congruence| |]; reflexivity.
  - intros Hok Hbody. rewrite Hok, Hbody.
    destruct c as [[|n]|]; [congruence| |]; reflexivity.
Qed.

Lemma every_stream_fails_on_bad_response_witness :
  snd (stream_of AnthropicProvider
         {| baseURL := js "https://api.anthropic.com/v1"; apiKey := js "k";
            model := js "claude"; messages := []; systemMessage := None |}
         (Resolved {| ok := false; statusText := js "Unauthorized";
                      body := Some [Done] |}) None)
  = Threw (Error (js "Anthropic API error: Unauthorized")).
Proof.
  destruct (every_stream_fails_on_bad_response AnthropicProvider
              {| baseURL := js "https://api.anthropic.com/v1"; apiKey := js "k";
                 model := js "claude"; messages := []; systemMessage := None |}
              {| ok := false; statusText := js "Unauthorized";
                 body := Some [Done] |} None) as [H _]; [discriminate|].
  rewrite (H eq_refl). reflexivity.
Defined.

(** X4. For each provider, when the token fires while the [fetch] is
    pending or while a read is pending after any buffers, the generator
    returns without throwing, having yielded the items of the buffers read
    before; and whenever a generator ends, its subscription is disposed
    of, once and last. *)
Theorem every_stream_cancels_cleanly (v : provider) (a : stream_args) :
  (forall f c, c <> Some 0 ->
     stream_of v a (cancel_at 0 f) c
     = ([Subscribe; Fetch (request_of v a); Dispose], Completed))
  /\ (forall r chunks later,
        ok r = true ->
        body r = Some (map Chunk chunks ++ later) ->
        observed (stream_of v a (cancel_at (S (length chunks)) (Resolved r)) None)
        = (flat_map (on_line_of v) (emitted_lines chunks), Completed))
  /\ (forall f c,
        snd (stream_of v a f c) <> Suspended ->
        released (fst (stream_of v a f c))).
Proof.
  split; [|split].
  - intros f c Hc. rewrite stream_of_eq.
    destruct f; destruct c as [[|n]|]; try congruence; reflexivity.
  - intros r chunks later Hok Hbody. rewrite observed_stream_all.
    unfold cancel_at. rewrite Hbody. simpl option_map.
    rewrite abort_read_chunks.
    erewrite inner_block_rejected with (chunks := chunks) (e := AbortError)
                                       (later := []);
      [reflexivity | exact Hok | reflexivity].
  - intros f c. apply stream_released.
Qed.

Lemma every_stream_cancels_cleanly_witness :
  observed (stream_of OllamaProvider
              {| baseURL := js "http://localhost:11434"; apiKey := [];
                 model := js "llama3"; messages := []; systemMessage := None |}
              (cancel_at 2
                 (Resolved {| ok := true; statusText := js "OK";
                              body := Some (map Chunk [qbytes "{'message':{'content':'hi'}}
"] ++ [Chunk (qbytes "{'message':{'content':'!'}}
"); Done]) |})) None)
  = ([TextDelta (JString (js "hi"))], Completed).
Proof.
  destruct (every_stream_cancels_cleanly OllamaProvider
              {| baseURL := js "http://localhost:11434"; apiKey := [];
                 model := js "llama3"; messages := []; systemMessage := None |})
    as (_ & H & _).
  exact (H {| ok := true; statusText := js "OK";
              body := Some (map Chunk [qbytes "{'message':{'content':'hi'}}
"] ++ [Chunk (qbytes "{'message':{'content':'!'}}
"); Done]) |}
           [qbytes "{'message':{'content':'hi'}}
"] [Chunk (qbytes "{'message':{'content':'!'}}
"); Done] eq_refl eq_refl).
Defined.

(** X5. For each provider, an error of the transport that is not an abort
    reaches the consumer as it is: a rejected [fetch] is thrown right
    away; a rejected read is thrown after the items of the buffers read
    before it; the subscription is disposed of in both cases. *)
Theorem every_stream_propagates_errors
  (v : provider) (a : stream_args) (e : error) :
  str_eqb (name e) (js "AbortError") = false ->
  (forall c, c <> Some 0 ->
     stream_of v a (Rejected e) c
     = ([Subscribe; Fetch (request_of v a); Dispose], Threw e))
  /\ (forall r chunks later,
        ok r = true ->
        body r = Some (map Chunk chunks ++ ReadRejected e :: later) ->
        observed (stream_of v a (Resolved r) None)
        = (flat_map (on_line_of v) (emitted_lines chunks), Threw e)
        /\ released (fst (stream_of v a (Resolved r) None))).
Proof.
  intros He. split.
  - intros c Hc. rewrite stream_of_eq.
    unfold generator, inner_block, read_response, returned_at, finally_dispose,
      catch_abort.
    destruct c as [[|n]|]; [congruence| |]; simpl; rewrite He; reflexivity.
  - intros r chunks later Hok Hbody.
    assert (Hobs : observed (stream_of v a (Resolved r) None)
                   = (flat_map (on_line_of v) (emitted_lines chunks), Threw e)).
    { rewrite observed_stream_all,
        (inner_block_rejected (on_line_of v) (api_of v) (request_of v a)
           r chunks e later Hok Hbody).
      simpl. rewrite He. reflexivity. }
    split; [exact Hobs|]. apply stream_released.
    unfold observed in Hobs. inversion Hobs as [[Hy Hc]]. rewrite Hc. discriminate.
Qed.

Lemma every_stream_propagates_errors_witness :
  observed (stream_of OpenAIProvider
              {| baseURL := js "https://api.openai.com/v1"; apiKey := js "k";
                 model := js "gpt-4o"; messages := []; systemMessage := None |}
              (Resolved {| ok := true; statusText := js "OK";
                           body := Some (map Chunk [qbytes "data: {'choices':[{'delta':{'content':'hi'}}]}
"] ++ ReadRejected (TypeError "network error") :: []) |}) None)
  = ([TextDelta (JString (js "hi"))], Threw (TypeError "network error")).
Proof.
  destruct (every_stream_propagates_errors OpenAIProvider
              {| baseURL := js "https://api.openai.com/v1"; apiKey := js "k";
                 model := js "gpt-4o"; messages := []; systemMessage := None |}
              (TypeError "network error") eq_refl) as [_ H].
  destruct (H {| ok := true; statusText := js "OK";
                 body := Some (map Chunk [qbytes "data: {'choices':[{'delta':{'content':'hi'}}]}
"] ++ ReadRejected (TypeError "network error") :: []) |}
              [qbytes "data: {'choices':[{'delta':{'content':'hi'}}]}
"] [] eq_refl eq_refl) as [Hobs _].
  exact Hobs.
Defined.

(** X6. For each provider and whatever the transport does, a consumer
    that leaves at its item number [n] has received exactly the first [n]
    items a consumer taking everything receives; the generator then
    completes and its subscription is disposed of. *)
Theorem early_return_takes_a_prefix
  (v : provider) (a : stream_args) (f : fetch_result) (n : nat) :
  n <= length (yielded (fst (stream_of v a f None))) ->
  observed (stream_of v a f (Some n))
  = (firstn n (yielded (fst (stream_of v a f None))), Completed)
  /\ released (fst (stream_of v a f (Some n))).
Proof.
  intros Hn.
  assert (Hy : yielded (fst (stream_of v a f None))
               = yielded (fst (inner_block (on_line_of v) (api_of v)
                                 (request_of v a) f)))
    by exact (f_equal fst (observed_stream_all v a f)).
  rewrite Hy in Hn |- *.
  assert (Hobs : observed (stream_of v a f (Some n))
    = (firstn n (yielded (fst (inner_block (on_line_of v) (api_of v)
                                  (request_of v a) f))), Completed)).
  { rewrite stream_of_eq, observed_generator.
    destruct n as [|n]; [reflexivity|].
    rewrite observed_returned_at.
    apply Nat.leb_le in Hn. rewrite Hn. reflexivity. }
  split; [exact Hobs|]. apply stream_released.
  unfold observed in Hobs. inversion Hobs as [[Hy' Hc']]. rewrite Hc'. discriminate.
Qed.

Lemma early_return_takes_a_prefix_witness :
  observed (stream_of AnthropicProvider
              {| baseURL := js "https://api.anthropic.com/v1"; apiKey := js "k";
                 model := js "claude"; messages := []; systemMessage := None |}
              (delivers [qbytes "data: {'type':'content_block_delta','delta':{'text':'a'}}
data: {'type':'content_block_delta','delta':{'text':'b'}}
"]) (Some 1))
  = ([TextDelta (JString (js "a"))], Completed).
Proof.
  destruct (early_return_takes_a_prefix AnthropicProvider
              {| baseURL := js "https://api.anthropic.com/v1"; apiKey := js "k";
                 model := js "claude"; messages := []; systemMessage := None |}
              (delivers [qbytes "data: {'type':'content_block_delta','delta':{'text':'a'}}
data: {'type':'content_block_delta','delta':{'text':'b'}}
"]) 1) as [H _].
  - vm_compute. lia.
  - rewrite H. vm_compute. reflexivity.
Defined.

(** X7. For each provider, once a read reports the end of the data the
    generator reads no more: whatever would follow in the transport is
    never asked for.  A response of [n] buffers costs one [fetch] and
    [n + 1] reads. *)
Theorem nothing_is_read_after_the_end
  (v : provider) (a : stream_args) (status : jsstring)
  (chunks : list (list byte)) (later : list read_result) (c : consumer) :
  stream_of v a
    (Resolved {| ok := true; statusText := status;
                 body := Some (map Chunk chunks ++ Done :: later) |}) c
  = stream_of v a (delivers chunks) c
  /\ count_read (fst (stream_of v a (delivers chunks) None)) = S (length chunks)
  /\ count_fetch (fst (stream_of v a (delivers chunks) None)) = 1.
Proof.
  split.
  - rewrite !stream_of_eq. unfold inner_block, delivers, read_response. simpl.
    rewrite read_loop_after_done. reflexivity.
  - rewrite stream_of_eq.
    unfold generator, returned_at, finally_dispose, catch_abort, inner_block,
      delivers, read_response. simpl.
    destruct (read_loop_counts (on_line_of v) chunks loop_start) as (H1 & H2 & H3).
    destruct (read_loop (on_line_of v) loop_start (map Chunk chunks ++ [Done]))
      as [log k].
    simpl in *. subst k. simpl.
    rewrite count_read_app, count_fetch_app. simpl. lia.
Qed.

End AllProviders.

(* ================================================================= *)
(** ** The Ollama provider *)

Section OllamaProvider.

(** X8. On a line of the Ollama stream: a line that is blank once trimmed
    is passed over; otherwise an item is yielded exactly when the line
    parses and [message?.content] is truthy, and the item carries that
    content; a line [JSON.parse] rejects gives nothing. *)
Theorem ollama_delta_extraction (line : jsstring) :
  (trim line = [] -> Ollama.on_line line = [])
  /\ (Ollama.on_line line <> [] <->
      trim line <> []
      /\ exists parsed,
           parse line = Ok parsed
           /\ truthy (optional (get parsed (js "message"))
                               (fun m => get m (js "content"))) = true)
  /\ (forall parsed,
        trim line <> [] ->
        parse line = Ok parsed ->
        truthy (optional (get parsed (js "message"))
                         (fun m => get m (js "content"))) = true ->
        Ollama.on_line line
        = [TextDelta (optional (get parsed (js "message"))
                               (fun m => get m (js "content")))])
  /\ (forall e, parse line = Throw e -> Ollama.on_line line = []).
Proof.
  assert (Hyes : forall parsed,
        trim line <> [] ->
        parse line = Ok parsed ->
        truthy (optional (get parsed (js "message"))
                         (fun m => get m (js "content"))) = true ->
        Ollama.on_line line
        = [TextDelta (optional (get parsed (js "message"))
                               (fun m => get m (js "content")))]).
  { intros parsed Ht Hp Hx. unfold Ollama.on_line, Ollama.try_block.
    destruct (trim line); [congruence|]. rewrite Hp. unfold member.
    destruct (nullish parsed) eqn:Hn.
    - destruct parsed; simpl in Hn; try discriminate; simpl in Hx; discriminate.
    - rewrite Hx. reflexivity. }
  split; [|split; [split|split; [exact Hyes|]]].
  - intros Ht. unfold Ollama.on_line. rewrite Ht. reflexivity.
  - intros H. unfold Ollama.on_line, Ollama.try_block in H.
    destruct (trim line) as [|c t]; [congruence|].
    split; [discriminate|].
    destruct (parse line) as [parsed|e]; [|congruence].
    exists parsed. split; [reflexivity|]. unfold member in H.
    destruct (nullish parsed); [congruence|].
    destruct (truthy (optional (get parsed (js "message"))
                               (fun m => get m (js "content"))));
      [reflexivity | congruence].
  - intros (Ht & parsed & Hp & Hx). rewrite (Hyes parsed Ht Hp Hx). discriminate.
  - intros e Hp. unfold Ollama.on_line, Ollama.try_block. rewrite Hp.
    destruct (trim line); reflexivity.
Qed.

Lemma ollama_delta_extraction_witness :
  Ollama.on_line (jq "{'message':{'content':'hi'}}")
  = [TextDelta (JString (js "hi"))]
  /\ Ollama.on_line (js "   ") = [].
Proof.
  split.
  - destruct (ollama_delta_extraction (jq "{'message':{'content':'hi'}}"))
      as (_ & _ & H & _).
    apply (H (JObject [(js "message",
                        JObject [(js "content", JString (js "hi"))])]));
      [vm_compute; discriminate | vm_compute; reflexivity | reflexivity].
  - destruct (ollama_delta_extraction (js "   ")) as (H & _).
    apply H. reflexivity.
Defined.

Lemma push_models_later models : forall modelList,
  modelList <> [] ->
  map Metadata.identifier (Ollama.push_models models modelList)
  = map Metadata.identifier modelList ++ map Ollama.modelId models
  /\ map (fun e => Metadata.id (Metadata.metadata e))
         (Ollama.push_models models modelList)
     = map (fun e => Metadata.id (Metadata.metadata e)) modelList ++ models
  /\ map (fun e => Metadata.isDefault (Metadata.metadata e))
         (Ollama.push_models models modelList)
     = map (fun e => Metadata.isDefault (Metadata.metadata e)) modelList
       ++ repeat false (length models)
  /\ (Forall (fun e => Metadata.isUserSelectable (Metadata.metadata e) = true)
             modelList ->
      Forall (fun e => Metadata.isUserSelectable (Metadata.metadata e) = true)
             (Ollama.push_models models modelList)).
Proof.
  induction models as [|m models IH]; intros modelList Hne.
  - cbn [Ollama.push_models map length repeat]. rewrite !app_nil_r. auto.
  - cbn [Ollama.push_models].
    match goal with
    | |- context [Ollama.push_models models ?acc] =>
        destruct (IH acc) as (I1 & I2 & I3 & I4);
          [destruct modelList; discriminate|]
    end.
    rewrite I1, I2, I3. rewrite !map_app, <- !app_assoc.
    destruct modelList as [|e0 l0]; [congruence|].
    split; [reflexivity|]. split; [reflexivity|]. split; [reflexivity|].
    intros Hall. apply I4. apply Forall_app. split; [exact Hall|].
    constructor; [reflexivity | constructor].
Qed.

Lemma provide_listed modelName rest :
  let l := Ollama.provideLanguageModelChatInfo (Some (modelName :: rest)) in
  map Metadata.identifier l = map Ollama.modelId (modelName :: rest)
  /\ map (fun e => Metadata.id (Metadata.metadata e)) l = modelName :: rest
  /\ map (fun e => Metadata.isDefault (Metadata.metadata e)) l
     = true :: repeat false (length rest)
  /\ Forall (fun e => Metadata.isUserSelectable (Metadata.metadata e) = true) l.
Proof.
  intros l. unfold l, Ollama.provideLanguageModelChatInfo.
  cbn [Ollama.push_models app length Nat.eqb].
  match goal with
  | |- context [Ollama.push_models rest ?acc] =>
      destruct (push_models_later rest acc) as (I1 & I2 & I3 & I4);
        [discriminate|];
      assert (Hne : Ollama.push_models rest acc <> [])
        by (intros E; rewrite E in I1; discriminate I1);
      destruct (Ollama.push_models rest acc) as [|e0 l0] eqn:E; [congruence|]
  end.
  rewrite I1, I2, I3. repeat split; try reflexivity.
  apply I4. constructor; [reflexivity | constructor].
Qed.

(** X9. From the names an Ollama server lists, one at least,
    [provideLanguageModelChatInfo] makes one descriptor per name, in
    order: the identifier is the encoded name, the [id] the name itself;
    the first descriptor alone has [isDefault] set; all can be selected by
    the user.  From an empty list it makes the single placeholder
    [ollama-suggestion], neither default nor selectable; and nothing when
    the server cannot be reached. *)
Theorem ollama_models_advertised :
  (forall modelName rest,
     let l := Ollama.provideLanguageModelChatInfo (Some (modelName :: rest)) in
     map Metadata.identifier l = map Ollama.modelId (modelName :: rest)
     /\ map (fun e => Metadata.id (Metadata.metadata e)) l = modelName :: rest
     /\ map (fun e => Metadata.isDefault (Metadata.metadata e)) l
        = true :: repeat false (length rest)
     /\ Forall (fun e => Metadata.isUserSelectable (Metadata.metadata e) = true) l)
  /\ (exists e,
        Ollama.provideLanguageModelChatInfo (Some []) = [e]
        /\ Metadata.identifier e = js "ollama-suggestion"
        /\ Metadata.isDefault (Metadata.metadata e) = false
        /\ Metadata.isUserSelectable (Metadata.metadata e) = false)
  /\ Ollama.provideLanguageModelChatInfo None = [].
Proof.
  split; [exact provide_listed|].
  split; [eexists; repeat split|reflexivity].
Qed.

Lemma in_flat_map_tokens c name :
  In c (flat_map colon_token (flat_map dot_token name)) ->
  c <> 46%N /\ c <> 58%N.
Proof.
  induction name as [|x name IH]; [intros []|].
  cbn [flat_map]. rewrite flat_map_app. intros H.
  apply in_app_or in H. destruct H as [H|H]; [|auto].
  unfold dot_token in H. destruct (N.eqb_spec 46 x) as [<-|H46].
  - vm_compute in H. repeat (destruct H as [<-|H]; [split; discriminate|]).
    destruct H.
  - cbn [flat_map] in H. rewrite app_nil_r in H. unfold colon_token in H.
    destruct (N.eqb_spec 58 x) as [<-|H58].
    + vm_compute in H. repeat (destruct H as [<-|H]; [split; discriminate|]).
      destruct H.
    + destruct H as [<-|[]]. split; congruence.
Qed.

(** X10. An identifier the Ollama provider makes never holds a full stop
    or a colon, whatever the model name, and begins with [ollama-]. *)
Theorem ollama_identifier_is_plain (modelName : jsstring) :
  ~ In 46%N (Ollama.modelId modelName)
  /\ ~ In 58%N (Ollama.modelId modelName)
  /\ startsWith (js "ollama-") (Ollama.modelId modelName) = true
  /\ skipn 7 (Ollama.modelId modelName) = Ollama.encodedName modelName.
Proof.
  assert (H : forall c, In c (Ollama.modelId modelName) -> c <> 46%N /\ c <> 58%N).
  { intros c Hc. unfold Ollama.modelId in Hc. apply in_app_or in Hc.
    destruct Hc as [Hc|Hc].
    - vm_compute in Hc.
      repeat (destruct Hc as [<-|Hc]; [split; discriminate|]). destruct Hc.
    - rewrite encodedName_tokens in Hc. apply in_flat_map_tokens in Hc. exact Hc. }
  split; [intros Hc; apply H in Hc; destruct Hc; congruence|].
  split; [intros Hc; apply H in Hc; destruct Hc; congruence|].
  split; reflexivity.
Qed.

Lemma decoded_modelId modelName :
  includes (js "dot") modelName = false ->
  includes (js "colon") modelName = false ->
  Ollama.decodedModel (Ollama.modelId modelName) = modelName.
Proof.
  intros Hdot Hcolon. unfold Ollama.decodedModel, Ollama.modelId.
  change (replace (js "ollama-") [] (js "ollama-" ++ Ollama.encodedName modelName))
    with (Ollama.encodedName modelName).
  rewrite encodedName_tokens, decode_dots, decode_colons; auto.
Qed.

(** X11. Names in which neither [dot] nor [colon] occurs get different
    identifiers when they differ; so the identifiers advertised for a list
    of such names, no two the same, are no two the same. *)
Theorem ollama_identifiers_distinct (names : list jsstring) :
  Forall (fun n => includes (js "dot") n = false
                   /\ includes (js "colon") n = false) names ->
  (forall n1 n2, In n1 names -> In n2 names ->
                 Ollama.modelId n1 = Ollama.modelId n2 -> n1 = n2)
  /\ (NoDup names ->
      NoDup (map Metadata.identifier
               (Ollama.provideLanguageModelChatInfo (Some names)))).
Proof.
  intros Hplain. rewrite Forall_forall in Hplain.
  assert (Hinj : forall n1 n2, In n1 names -> In n2 names ->
                 Ollama.modelId n1 = Ollama.modelId n2 -> n1 = n2).
  { intros n1 n2 H1 H2 E.
    destruct (Hplain n1 H1) as [D1 C1]. destruct (Hplain n2 H2) as [D2 C2].
    rewrite <- (decoded_modelId n1 D1 C1), <- (decoded_modelId n2 D2 C2), E.
    reflexivity. }
  split; [exact Hinj|]. intros Hnd.
  destruct names as [|n rest].
  - simpl. constructor; [intros []|constructor].
  - destruct (provide_listed n rest) as (-> & _).
    revert Hinj Hnd. generalize (n :: rest). intros l Hinj Hnd.
    induction Hnd as [|x l Hx Hnd IH]; simpl; constructor.
    + intros Hin. apply in_map_iff in Hin. destruct Hin as (y & Ey & Hy).
      apply Hx. rewrite (Hinj x y); auto; [left; reflexivity | right; exact Hy].
    + apply IH. intros n1 n2 H1 H2. apply Hinj; right; assumption.
Qed.

Lemma ollama_identifiers_distinct_witness :
  NoDup (map Metadata.identifier
           (Ollama.provideLanguageModelChatInfo
              (Some [js "llama3.1:8b"; js "llama3.1:70b"]))).
Proof.
  destruct (ollama_identifiers_distinct [js "llama3.1:8b"; js "llama3.1:70b"])
    as [_ H].
  - repeat constructor.
  - apply H. repeat constructor; simpl; intuition discriminate.
Defined.

End OllamaProvider.

(* ================================================================= *)
(** ** Credentials, model names and token counts *)

Section Requests.

Lemma falsy_or_literal a literal :
  (falsy a = false -> Some (or_literal a literal) = a)
  /\ (falsy a = true -> or_literal a literal = literal).
Proof. destruct a as [[|c s]|]; simpl; split; congruence. Qed.

(** X12. The OpenAI [sendChatRequest] never throws, on any host: it takes
    the key of the environment when that is a non-empty string, else the
    key of the settings when that is one, and its key is never empty; the
    base URL is the configured one, or [https://api.openai.com/v1]; every
    message is kept, System ones too. *)
Theorem openai_request_always_goes_out
  (h : host) (modelId : jsstring) (msgs : list IChatMessage) :
  exists a,
    OpenAI.sendChatRequest h modelId msgs = Ok a
    /\ apiKey a <> []
    /\ (falsy (openai_env_key h) = false -> Some (apiKey a) = openai_env_key h)
    /\ (falsy (openai_env_key h) = true ->
        falsy (getValue h (js "languageModels.openai.apiKey")) = false ->
        Some (apiKey a) = getValue h (js "languageModels.openai.apiKey"))
    /\ (falsy (getValue h (js "languageModels.openai.baseURL")) = false ->
        Some (baseURL a) = getValue h (js "languageModels.openai.baseURL"))
    /\ (falsy (getValue h (js "languageModels.openai.baseURL")) = true ->
        baseURL a = js "https://api.openai.com/v1")
    /\ map wire_role (messages a)
       = map (fun m => OpenAI.messageRole (role m)) msgs.
Proof.
  unfold OpenAI.sendChatRequest. fold (openai_env_key h).
  destruct (falsy_or_literal (getValue h (js "languageModels.openai.baseURL"))
              (js "https://api.openai.com/v1")) as [Hb1 Hb2].
  assert (Hroles : forall l : list IChatMessage,
    map wire_role
      (map (fun msg => {| wire_role := OpenAI.messageRole (role msg);
                          wire_content := content_text msg |}) l)
    = map (fun m => OpenAI.messageRole (role m)) l)
    by (intros l; rewrite map_map; reflexivity).
  destruct (openai_env_key h) as [[|c k]|];
    destruct (getValue h (js "languageModels.openai.apiKey")) as [[|c' k']|];
    cbn [or_else or_literal OpenAI.hardcodedKey];
    (eexists; split; [reflexivity|]; cbn [apiKey baseURL messages falsy];
     repeat split; auto; try discriminate; try congruence).
Qed.

(** X13. The Anthropic provider advertises a model exactly when its
    [sendChatRequest] does not throw: both look at the key of the
    settings alone.  Without a key nothing is advertised and a request
    throws the configuration error; with one, the single model advertised
    is not a default, and a request carries that very key in [x-api-key]. *)
Theorem anthropic_advertises_what_it_can_send
  (h : host) (modelId : jsstring) (msgs : list IChatMessage) :
  (AnthropicInfo.provideLanguageModelChatInfo h = [] <->
   exists e, Anthropic.sendChatRequest h modelId msgs = Throw e)
  /\ (forall e,
        Anthropic.sendChatRequest h modelId msgs = Throw e ->
        e = Error (js "Anthropic API key not configured. Please set languageModels.anthropic.apiKey in settings."))
  /\ (forall a,
        Anthropic.sendChatRequest h modelId msgs = Ok a ->
        Some (apiKey a) = getValue h (js "languageModels.anthropic.apiKey")
        /\ apiKey a <> []
        /\ In (js "x-api-key", apiKey a) (headers (Anthropic.fetch_request a))
        /\ length (AnthropicInfo.provideLanguageModelChatInfo h) = 1)
  /\ Forall (fun e => Metadata.isDefault (Metadata.metadata e) = false)
            (AnthropicInfo.provideLanguageModelChatInfo h).
Proof.
  unfold AnthropicInfo.provideLanguageModelChatInfo, Anthropic.sendChatRequest.
  destruct (getValue h (js "languageModels.anthropic.apiKey")) as [[|c k]|].
  - repeat split; try (intros; eexists; reflexivity); try constructor;
      intros; congruence.
  - split; [split; [discriminate | intros [e He]; discriminate He]|].
    split; [intros; discriminate|].
    split; [|repeat constructor].
    intros a Ha. inversion Ha; subst a; clear Ha. simpl.
    repeat split; auto. discriminate.
  - repeat split; try (intros; eexists; reflexivity); try constructor;
      intros; congruence.
Qed.

Lemma anthropic_advertises_what_it_can_send_witness :
  exists e,
    Anthropic.sendChatRequest
      {| getValue := fun _ => None; process_env := None |}
      (js "anthropic-claude-3.5-sonnet") [] = Throw e.
Proof.
  destruct (anthropic_advertises_what_it_can_send
              {| getValue := fun _ => None; process_env := None |}
              (js "anthropic-claude-3.5-sonnet") []) as ([H _] & _).
  apply H. reflexivity.
Defined.




(** X15. The token estimate is the length of the text over four, rounded
    up: four times the estimate covers the text with less than four code
    units to spare; it is zero for the empty text only; a message counts
    as the text of its text parts; and a text cut in two never counts for
    more than its two pieces. *)
Theorem token_estimate_bounds (text more : jsstring) (msg : IChatMessage) :
  length text <= 4 * provideTokenCount (OfString text)
  /\ 4 * provideTokenCount (OfString text) < length text + 4
  /\ (provideTokenCount (OfString text) = 0 <-> text = [])
  /\ provideTokenCount (OfMessage msg) = provideTokenCount (OfString (content_text msg))
  /\ provideTokenCount (OfString (text ++ more))
     <= provideTokenCount (OfString text) + provideTokenCount (OfString more).
Proof.
  unfold provideTokenCount. rewrite length_app.
  pose proof (Nat.div_mod_eq (length text + 3) 4) as H1.
  pose proof (Nat.mod_upper_bound (length text + 3) 4 ltac:(lia)) as H2.
  pose proof (Nat.div_mod_eq (length more + 3) 4) as H3.
  pose proof (Nat.mod_upper_bound (length more + 3) 4 ltac:(lia)) as H4.
  pose proof (Nat.div_mod_eq (length text + length more + 3) 4) as H5.
  pose proof (Nat.mod_upper_bound (length text + length more + 3) 4 ltac:(lia)) as H6.
  repeat split; try lia.
  - intros H0. destruct text; [reflexivity | simpl in *; lia].
  - intros ->. reflexivity.
Qed.

End Requests.

(* ================================================================= *)
(** ** The chat agent *)

Section ChatAgent.










End ChatAgent.

(* ================================================================= *)
(** ** The core vendors *)

Section CoreVendorsFacts.

Lemma get_set_same k v m : CoreVendors.get k (CoreVendors.set k v m) = Some v.
Proof.
  induction m as [|[k' v'] m IH]; simpl.
  - rewrite str_eqb_refl. reflexivity.
  - destruct (str_eqb k' k) eqn:E; simpl.
    + rewrite str_eqb_refl. reflexivity.
    + rewrite E. exact IH.
Qed.

Lemma get_set_other k k2 v m :
  k <> k2 -> CoreVendors.get k2 (CoreVendors.set k v m) = CoreVendors.get k2 m.
Proof.
  intros Hne.
  assert (Hk : str_eqb k k2 = false).
  { destruct (str_eqb k k2) eqn:E; [|reflexivity].
    apply str_eqb_eq in E. congruence. }
  induction m as [|[k' v'] m IH]; simpl.
  - rewrite Hk. reflexivity.
  - destruct (str_eqb k' k) eqn:E; simpl.
    + apply str_eqb_eq in E. subst k'. rewrite Hk. reflexivity.
    + rewrite IH. reflexivity.
Qed.

Lemma set_present k v m :
  CoreVendors.get k m = Some v -> CoreVendors.set k v m = m.
Proof.
  induction m as [|[k' v'] m IH]; simpl; [discriminate|].
  destruct (str_eqb k' k) eqn:E.
  - intros H. inversion H; subst. apply str_eqb_eq in E. subst. reflexivity.
  - intros H. rewrite (IH H). reflexivity.
Qed.

Lemma length_set k v m :
  length m <= length (CoreVendors.set k v m) <= S (length m).
Proof.
  induction m as [|[k' v'] m IH]; simpl; [lia|].
  destruct (str_eqb k' k); simpl; lia.
Qed.

(** X19. [registerCoreVendors] leaves in the vendors map the three core
    vendors, each under its name with its display name and no management
    command, whatever stood there before; every other vendor keeps its
    entry; at most three entries are added and none removed; and a second
    run changes nothing.  A service without the map is left alone. *)
Theorem core_vendors_registered (m : CoreVendors.Map) :
  (exists m',
     CoreVendors.registerCoreVendors (Some m) = Some m'
     /\ CoreVendors.get (js "openai") m' = Some (CoreVendors.core "openai" "OpenAI")
     /\ CoreVendors.get (js "anthropic") m'
        = Some (CoreVendors.core "anthropic" "Anthropic")
     /\ CoreVendors.get (js "ollama") m' = Some (CoreVendors.core "ollama" "Ollama")
     /\ (forall k,
           k <> js "openai" -> k <> js "anthropic" -> k <> js "ollama" ->
           CoreVendors.get k m' = CoreVendors.get k m)
     /\ length m <= length m' <= length m + 3
     /\ CoreVendors.registerCoreVendors (Some m') = Some m')
  /\ CoreVendors.registerCoreVendors None = None.
Proof.
  split; [|reflexivity].
  eexists. split; [reflexivity|].
  set (m1 := CoreVendors.set (js "openai") (CoreVendors.core "openai" "OpenAI") m).
  set (m2 := CoreVendors.set (js "anthropic")
               (CoreVendors.core "anthropic" "Anthropic") m1).
  set (m3 := CoreVendors.set (js "ollama") (CoreVendors.core "ollama" "Ollama") m2).
  assert (Ho : CoreVendors.get (js "openai") m3
               = Some (CoreVendors.core "openai" "OpenAI")).
  { unfold m3, m2. rewrite !get_set_other by discriminate. apply get_set_same. }
  assert (Ha : CoreVendors.get (js "anthropic") m3
               = Some (CoreVendors.core "anthropic" "Anthropic")).
  { unfold m3. rewrite get_set_other by discriminate. apply get_set_same. }
  assert (Hl : CoreVendors.get (js "ollama") m3
               = Some (CoreVendors.core "ollama" "Ollama"))
    by apply get_set_same.
  split; [exact Ho|]. split; [exact Ha|]. split; [exact Hl|]. split; [|split].
  - intros k H1 H2 H3. unfold m3, m2, m1.
    rewrite !get_set_other by congruence. reflexivity.
  - pose proof (length_set (js "openai") (CoreVendors.core "openai" "OpenAI") m).
    pose proof (length_set (js "anthropic")
                  (CoreVendors.core "anthropic" "Anthropic") m1).
    pose proof (length_set (js "ollama") (CoreVendors.core "ollama" "Ollama") m2).
    fold m1 in H. fold m2 in H0. fold m3 in H1. lia.
  - unfold CoreVendors.registerCoreVendors.
    rewrite (set_present _ _ _ Ho).
    rewrite (set_present _ _ _ Ha).
    rewrite (set_present _ _ _ Hl). reflexivity.
Qed.

Lemma core_vendors_registered_witness :
  let custom := {| CoreVendors.vendor := js "copilot";
                   CoreVendors.displayName := js "Copilot";
                   CoreVendors.managementCommand := Some (js "manage") |} in
  exists m',
    CoreVendors.registerCoreVendors (Some [(js "copilot", custom)]) = Some m'
    /\ CoreVendors.get (js "copilot") m' = Some custom.
Proof.
  intros custom.
  destruct (core_vendors_registered [(js "copilot", custom)])
    as [(m' & E & _ & _ & _ & H & _) _].
  exists m'. split; [exact E|].
  rewrite H by discriminate. reflexivity.
Defined.

End CoreVendorsFacts.

(* ================================================================= *)
(** ** More on the generators and on the Ollama descriptors *)

Section MoreFacts.

(** X20. For each provider, a generator that stays suspended on the
    transport (a [fetch] or a read that never settles) has taken its
    subscription to the token and has not disposed of it. *)
Theorem suspended_stream_holds_its_subscription
  (v : provider) (a : stream_args) (f : fetch_result) (c : consumer) :
  snd (stream_of v a f c) = Suspended ->
  exists mid,
    fst (stream_of v a f c) = Subscribe :: mid
    /\ Forall inner_effect mid
    /\ count_dispose (fst (stream_of v a f c)) = 0.
Proof.
  rewrite stream_of_eq. unfold generator.
  pose proof (inner_block_effects (on_line_of v) (api_of v) (request_of v a) f)
    as Hb.
  destruct c as [[|n]|]; [discriminate| |];
    match goal with
    | |- context [returned_at ?c ?b] =>
        pose proof (returned_at_inner c b Hb) as Hin;
        destruct (returned_at c b) as [log k]
    end;
    unfold catch_abort, finally_dispose; simpl in *;
    (destruct k as [|e|]; simpl;
     [ discriminate
     | destruct (str_eqb (name e) (js "AbortError")); discriminate
     | intros _; exists log; split; [reflexivity|]; split; [exact Hin|];
       clear -Hin; induction Hin as [|x l Hx _ IH]; [reflexivity|];
       destruct x; simpl in *; try contradiction; exact IH ]).
Qed.

Lemma suspended_stream_holds_its_subscription_witness :
  fst (stream_of OllamaProvider
         {| baseURL := js "http://localhost:11434"; apiKey := [];
            model := js "llama3"; messages := []; systemMessage := None |}
         Pending None)
  = [Subscribe;
     Fetch (Ollama.fetch_request
              {| baseURL := js "http://localhost:11434"; apiKey := [];
                 model := js "llama3"; messages := []; systemMessage := None |})].
Proof.
  destruct (suspended_stream_holds_its_subscription OllamaProvider
              {| baseURL := js "http://localhost:11434"; apiKey := [];
                 model := js "llama3"; messages := []; systemMessage := None |}
              Pending None eq_refl) as (mid & E & _).
  rewrite E. inversion E. reflexivity.
Defined.

Lemma hd_split sep s : hd [] (split sep s) = before sep s.
Proof.
  induction s as [|c s IH]; [reflexivity|]. simpl.
  destruct (N.eqb c sep); [reflexivity|].
  pose proof (split_nonempty sep s) as Hne.
  destruct (split sep s) as [|l ls]; [congruence|]. simpl in *. congruence.
Qed.

Lemma push_models_family models : forall modelList,
  map (fun e => Metadata.family (Metadata.metadata e))
      (Ollama.push_models models modelList)
  = map (fun e => Metadata.family (Metadata.metadata e)) modelList
    ++ map (before 58) models.
Proof.
  induction models as [|m models IH]; intros modelList.
  - cbn [Ollama.push_models map]. rewrite app_nil_r. reflexivity.
  - cbn [Ollama.push_models]. rewrite IH, map_app, <- app_assoc.
    cbn [map app Metadata.family Metadata.metadata]. rewrite hd_split.
    reflexivity.
Qed.

(** X21. The [family] of an Ollama descriptor is its model name up to the
    first colon: the whole name when it holds no colon, and the part
    before the tag otherwise. *)
Theorem ollama_family_is_the_untagged_name
  (modelName : jsstring) (rest : list jsstring) :
  map (fun e => Metadata.family (Metadata.metadata e))
      (Ollama.provideLanguageModelChatInfo (Some (modelName :: rest)))
  = map (before 58) (modelName :: rest)
  /\ (forall n, ~ In 58%N n -> before 58 n = n)
  /\ (forall n tag, ~ In 58%N n -> before 58 (n ++ 58%N :: tag) = n).
Proof.
  split; [|split].
  - unfold Ollama.provideLanguageModelChatInfo.
    pose proof (push_models_family (modelName :: rest) []) as H.
    destruct (Ollama.push_models (modelName :: rest) []) as [|e0 l0] eqn:E.
    + discriminate H.
    + exact H.
  - induction n as [|c n IH]; intros Hn; [reflexivity|]. simpl.
    destruct (N.eqb_spec c 58) as [->|Hc]; [exfalso; apply Hn; left; reflexivity|].
    rewrite IH; [reflexivity|]. intros H. apply Hn. right. exact H.
  - induction n as [|c n IH]; intros tag Hn; [reflexivity|]. simpl.
    destruct (N.eqb_spec c 58) as [->|Hc]; [exfalso; apply Hn; left; reflexivity|].
    rewrite IH; [reflexivity|]. intros H. apply Hn. right. exact H.
Qed.

Lemma ollama_family_is_the_untagged_name_witness :
  map (fun e => Metadata.family (Metadata.metadata e))
      (Ollama.provideLanguageModelChatInfo (Some [js "llama3.1:8b"]))
  = [js "llama3.1"].
Proof.
  destruct (ollama_family_is_the_untagged_name (js "llama3.1:8b") [])
    as (H & _ & H2).
  rewrite H. cbn [map].
  rewrite <- (H2 (js "llama3.1") (js "8b")); [reflexivity|].
  vm_compute. intros Hin.
  repeat (destruct Hin as [Hin|Hin]; [discriminate Hin|]). exact Hin.
Defined.

End MoreFacts.
